(** * marketing.py: exploratory analysis of the bank marketing table

    A shallow embedding of [src/marketing.py].  The script is one linear
    pipeline over a single pandas DataFrame:

      load (lines 18-25) -> inspect (27-53) -> clean (55-64)
        -> seven charts (66-136) -> printed insights (138-149).

    The table is a list of rows, each row a finite map from column name to
    cell; console output and displayed figures are recorded as a trace of
    events; [exit()] and uncaught exceptions end the run with an outcome.
    pandas, numpy and seaborn are library code: their operations are
    written out here as they behave on the calls the script makes. *)

From Stdlib Require Import ZArith QArith Qcanon Reals Qreals Lra Lia.
From Stdlib Require Import Floats.SpecFloat Sorting.Sorted.
From stdpp Require Import base decidable countable gmap strings list numbers pretty.


Local Open Scope Z_scope.

(** ** Cells, series and frames *)

(** A cell of the table.  Numbers (int64 and finite float64 alike) are the
    rationals they denote, so that [1] and [1.0] are the same cell, as they
    are for pandas' comparisons and label lookups; [VNaN] is the missing
    marker. *)
Inductive value : Type :=
  | VStr (s : string)
  | VNum (q : Qc)
  | VNaN.

#[global] Instance value_eq_dec : EqDecision value.
Proof. solve_decision. Defined.

Definition VInt (n : Z) : value := VNum (Q2Qc (inject_Z n)).

Definition is_missing (v : value) : bool :=
  match v with VNaN => true | _ => false end.

Definition is_number (v : value) : bool :=
  match v with VNum _ => true | _ => false end.

Abbreviation Series := (list value).
Abbreviation Row := (gmap string value).

(** A DataFrame: the header in file order and the rows in index order. *)
Record DataFrame : Type := mkDataFrame {
  columns : list string;
  rows : list Row;
}.

(** [df.shape] *)
Definition shape (df : DataFrame) : nat * nat :=
  (length (rows df), length (columns df)).

(** ** Runs: output trace, early exit, uncaught exceptions *)

Inductive exn : Type :=
  | KeyError (key : string)
  | ValueError (msg : string)
  | TypeError (msg : string).

Inductive summary : Type := Head | Info | Describe | DescribeObject.

Inductive chart : Type :=
  | CountPlot (var : string) (hue : option string) (order : option Series)
  | HistPlot (var : string) (bins : nat) (kde : bool)
  | BoxPlot (x y : string)
  | Heatmap (cols : list string) (fmt : string).

Record figure : Type := mkFigure {
  fig_chart : chart;
  fig_title : string;
  fig_xlabel : string;
  fig_ylabel : string;
}.

Inductive event : Type :=
  | Print (s : string)
  | PrintSummary (what : summary)
  | Show (fig : figure).

Inductive outcome (A : Type) : Type :=
  | Done (a : A)
  | Exit (code : option Z)
  | Raise (e : exn).
Arguments Done {A} a.
Arguments Exit {A} code.
Arguments Raise {A} e.

Definition Run (A : Type) : Type := list event * outcome A.

Definition ret {A} (a : A) : Run A := ([], Done a).

Definition bind {A B} (m : Run A) (k : A → Run B) : Run B :=
  match m with
  | (t, Done a) => let '(t', o) := k a in ((t ++ t')%list, o)
  | (t, Exit c) => (t, Exit c)
  | (t, Raise e) => (t, Raise e)
  end.

Declare Scope run_scope.
Delimit Scope run_scope with run.
Notation "x <- m ;; k" := (bind m (λ x, k))
  (at level 100, m at next level, k at level 200, only parsing) : run_scope.
Notation "m ;; k" := (bind m (λ _, k))
  (at level 100, k at level 200, only parsing) : run_scope.
Local Open Scope run_scope.

Definition print (s : string) : Run unit := ([Print s], Done tt).
Definition print_summary (w : summary) : Run unit := ([PrintSummary w], Done tt).
Definition show (f : figure) : Run unit := ([Show f], Done tt).
Definition raise {A} (e : exn) : Run A := ([], Raise e).

(** The builtin [exit(code)]: raises SystemExit, which nothing catches. *)
Definition exit {A} (code : option Z) : Run A := ([], Exit code).

Definition trace {A} (m : Run A) : list event := m.1.
Definition result {A} (m : Run A) : outcome A := m.2.

(** The status the interpreter hands to the operating system: falling off
    the end of the script and [SystemExit(None)] both give 0, an integer
    code gives itself, an uncaught exception gives 1. *)
Definition exit_status {A} (o : outcome A) : Z :=
  match o with
  | Done _ => 0
  | Exit None => 0
  | Exit (Some n) => n
  | Raise _ => 1
  end.

Definition charts_shown (t : list event) : list figure :=
  omap (λ e, match e with Show f => Some f | _ => None end) t.

Definition printed (t : list event) : list string :=
  omap (λ e, match e with Print s => Some s | _ => None end) t.

Definition nl : string := String (Ascii.ascii_of_nat 10) EmptyString.

(** ** Column access *)

(** [df[c]]: KeyError when the header has no such column; a row with no
    cell for the column reads as missing. *)
Definition get_col (c : string) (df : DataFrame) : option Series :=
  if decide (c ∈ columns df)
  then Some ((λ r : Row, default VNaN (r !! c)) <$> rows df)
  else None.

Definition getitem (c : string) (df : DataFrame) : Run Series :=
  match get_col c df with
  | Some s => ret s
  | None => raise (KeyError c)
  end.

(** [df[c] = s]: overwrites the column in place, or appends it to the
    header when it is new. *)
Definition set_col (c : string) (s : Series) (df : DataFrame) : DataFrame :=
  {| columns := if decide (c ∈ columns df) then columns df else (columns df ++ [c])%list;
     rows := zip_with (λ (r : Row) v, <[c := v]> r) (rows df) s |}.

(** ** Part 1: loading (lines 18-25) *)

(** [pd.read_csv] either yields the parsed table or raises
    FileNotFoundError; the file system is the optional table behind the
    fixed name. *)
Definition read_csv (fs : option DataFrame) : option DataFrame := fs.

Definition msg_not_found : string :=
  "Error: The 'bank-additional-full.csv' file was not found. Please download the dataset from the UCI Machine Learning Repository and place it in the same directory.".

Definition msg_link : string :=
  "Link: https://archive.ics.uci.edu/ml/machine-learning-databases/00222/bank-additional.zip".

Definition msg_loaded : string :=
  "Dataset loaded successfully! Let's get started with EDA. 🕵️‍♀️".

Definition loader (fs : option DataFrame) : Run DataFrame :=
  df <- match read_csv fs with
       | Some df => ret df
       | None => print msg_not_found ;; print msg_link ;; exit None
       end ;;
  print msg_loaded ;;
  ret df.

(** ** Part 2: inspection (lines 27-53) *)

(** [df.duplicated()]: a row is marked when an equal row came before it
    (keep='first'); missing cells compare equal to each other. *)
Fixpoint duplicated_from (seen : list Row) (rs : list Row) : list bool :=
  match rs with
  | [] => []
  | r :: rs' => bool_decide (r ∈ seen) :: duplicated_from (r :: seen) rs'
  end.

Definition duplicated (df : DataFrame) : list bool :=
  duplicated_from [] (rows df).

(** [.sum()] of a boolean series *)
Definition sum_bool (bs : list bool) : nat := length (filter (λ b, b = true) bs).

(** Boolean-mask selection of the rows that are NOT marked. *)
Fixpoint drop_marked {A} (xs : list A) (mask : list bool) : list A :=
  match xs, mask with
  | x :: xs', b :: mask' => if b then drop_marked xs' mask' else x :: drop_marked xs' mask'
  | _, _ => []
  end.

(** The rows that survive, given the rows already seen. *)
Definition keep_first (seen rs : list Row) : list Row :=
  drop_marked rs (duplicated_from seen rs).

(** [df.drop_duplicates(inplace=True)] *)
Definition drop_duplicates (df : DataFrame) : DataFrame :=
  {| columns := columns df; rows := drop_marked (rows df) (duplicated df) |}.

(** Lines 50-53, the only place where inspection touches the table. *)
Definition inspector_table (df : DataFrame) : DataFrame :=
  if decide (0 < sum_bool (duplicated df))%nat then drop_duplicates df else df.

Definition inspector (df : DataFrame) : Run DataFrame :=
  print (nl +:+ "## Initial Data Inspection") ;;
  print "First 5 rows of the dataset:" ;;
  print_summary Head ;;
  print (nl +:+ "Dataset has " +:+ pretty (shape df).1 +:+ " rows and "
            +:+ pretty (shape df).2 +:+ " columns.") ;;
  print (nl +:+ "DataFrame Info:") ;;
  print_summary Info ;;
  print (nl +:+ "Descriptive Statistics for Numerical Columns:") ;;
  print_summary Describe ;;
  print (nl +:+ "Descriptive Statistics for Categorical Columns:") ;;
  print_summary DescribeObject ;;
  print (nl +:+ "Number of duplicate rows: " +:+ pretty (sum_bool (duplicated df))) ;;
  if decide (0 < sum_bool (duplicated df))%nat
  then print "Duplicate rows have been removed." ;; ret (drop_duplicates df)
  else ret df.

(** ** Part 3: cleaning (lines 55-64) *)

(** [Series.replace(old, new)]: cells equal to [old] become [new]. *)
Definition replace (old new : value) (s : Series) : Series :=
  (λ v, if decide (v = old) then new else v) <$> s.

(** The literal [{'yes': 1, 'no': 0}] *)
Definition y_codes : gmap string Z := <["yes" := 1]> (<["no" := 0]> ∅).

(** Lookup of a cell in a dict with string keys: a number or a missing
    cell is no key of it. *)
Definition dict_get (d : gmap string Z) (v : value) : option Z :=
  match v with
  | VStr s => d !! s
  | _ => None
  end.

(** [Series.map(d)] with a plain dict: a cell that is no key of [d]
    becomes missing. *)
Definition series_map (d : gmap string Z) (s : Series) : Series :=
  (λ v, match dict_get d v with Some n => VInt n | None => VNaN end) <$> s.

Definition cleaner (df : DataFrame) : Run DataFrame :=
  print (nl +:+ "## Data Cleaning and Preprocessing") ;;
  p <- getitem "poutcome" df ;;
  let df := set_col "poutcome" (replace (VStr "nonexistent") (VStr "no_previous_campaign") p) df in
  y <- getitem "y" df ;;
  let df := set_col "y" (series_map y_codes y) df in
  print (nl +:+ "Target variable 'y' has been mapped to 1 (yes) and 0 (no).") ;;
  ret df.

(** The two recodings, cell by cell. *)
Definition recode_poutcome (v : value) : value :=
  if decide (v = VStr "nonexistent") then VStr "no_previous_campaign" else v.

Definition recode_y (v : value) : value :=
  if decide (v = VStr "yes") then VInt 1
  else if decide (v = VStr "no") then VInt 0
  else VNaN.

(** The table as the cleaning stage leaves it. *)
Definition cleaner_table (p y : Series) (df : DataFrame) : DataFrame :=
  set_col "y" (series_map y_codes y)
    (set_col "poutcome" (replace (VStr "nonexistent") (VStr "no_previous_campaign") p) df).

(** ** Counting values *)

Definition count (v : value) (s : Series) : nat :=
  length (filter (λ w, w = v) s).

(** [Series.unique()] on the non-missing cells, in order of first
    appearance. *)
Fixpoint unique_from (seen : Series) (s : Series) : Series :=
  match s with
  | [] => []
  | v :: s' =>
      if bool_decide (v ∈ seen) || is_missing v
      then unique_from seen s'
      else v :: unique_from (v :: seen) s'
  end.

Definition unique (s : Series) : Series := unique_from [] s.

Fixpoint insert_desc (p : value * nat) (l : list (value * nat)) : list (value * nat) :=
  match l with
  | [] => [p]
  | q :: l' =>
      if decide (q.2 ≤ p.2)%nat then p :: q :: l' else q :: insert_desc p l'
  end.

Definition sort_desc (l : list (value * nat)) : list (value * nat) :=
  foldr insert_desc [] l.

(** [Series.value_counts()]: every distinct non-missing value with its
    number of occurrences, most frequent first. *)
Definition value_counts (s : Series) : list (value * nat) :=
  sort_desc ((λ v, (v, count v s)) <$> unique s).

(** [.index] of a value_counts result *)
Definition index (vc : list (value * nat)) : Series := vc.*1.

Fixpoint lookup_label (k : value) (vc : list (value * nat)) : option nat :=
  match vc with
  | [] => None
  | (v, n) :: vc' => if decide (v = k) then Some n else lookup_label k vc'
  end.

(** [vc[k]] by label: KeyError when the label is absent. *)
Definition loc (k : value) (kname : string) (vc : list (value * nat)) : Run nat :=
  match lookup_label k vc with
  | Some n => ret n
  | None => raise (KeyError kname)
  end.

(** ** Parts 4 and 5: the charts (lines 66-136) *)

(** seaborn resolves a column named in [x=], [y=] or [hue=] against
    [data] and refuses a name that is no column. *)
Definition variable (c : string) (df : DataFrame) : Run unit :=
  if decide (c ∈ columns df) then ret tt
  else raise (ValueError ("Could not interpret value `" +:+ c +:+ "`")).

(** [select_dtypes(include=np.number)] keeps a column when it holds no
    string: a non-empty column of numbers and missing cells. *)
Definition is_numeric (s : Series) : bool :=
  bool_decide (s ≠ []) && forallb (λ v, is_number v || is_missing v) s.

Definition numeric_col (df : DataFrame) (c : string) : bool :=
  match get_col c df with Some s => is_numeric s | None => false end.

Definition numerical_cols (df : DataFrame) : list string :=
  filter (λ c, numeric_col df c = true) (columns df).

Definition chart_y (df : DataFrame) : Run DataFrame :=
  variable "y" df ;;
  show {| fig_chart := CountPlot "y" None None;
          fig_title := "Distribution of the Target Variable (Subscribed to Term Deposit)";
          fig_xlabel := "Subscription Status"; fig_ylabel := "Count" |} ;;
  ret df.

Definition chart_age (df : DataFrame) : Run DataFrame :=
  _ <- getitem "age" df ;;
  show {| fig_chart := HistPlot "age" 30 true;
          fig_title := "Distribution of Age";
          fig_xlabel := "Age"; fig_ylabel := "Frequency" |} ;;
  ret df.

Definition chart_job (df : DataFrame) : Run DataFrame :=
  job <- getitem "job" df ;;
  show {| fig_chart := CountPlot "job" None (Some (index (value_counts job)));
          fig_title := "Distribution of Job Categories";
          fig_xlabel := "Count"; fig_ylabel := "Job" |} ;;
  ret df.

Definition chart_age_by_y (df : DataFrame) : Run DataFrame :=
  variable "y" df ;;
  variable "age" df ;;
  show {| fig_chart := BoxPlot "y" "age";
          fig_title := "Age Distribution by Subscription Status";
          fig_xlabel := "Subscription Status"; fig_ylabel := "Age" |} ;;
  ret df.

Definition chart_job_by_y (df : DataFrame) : Run DataFrame :=
  job <- getitem "job" df ;;
  variable "job" df ;;
  variable "y" df ;;
  show {| fig_chart := CountPlot "job" (Some "y") (Some (index (value_counts job)));
          fig_title := "Subscription Status by Job Category";
          fig_xlabel := "Count"; fig_ylabel := "Job" |} ;;
  ret df.

Definition chart_correlation (df : DataFrame) : Run DataFrame :=
  show {| fig_chart := Heatmap (numerical_cols df) ".2f";
          fig_title := "Correlation Heatmap of Numerical Features";
          fig_xlabel := ""; fig_ylabel := "" |} ;;
  ret df.

Definition chart_duration_by_y (df : DataFrame) : Run DataFrame :=
  variable "y" df ;;
  variable "duration" df ;;
  show {| fig_chart := BoxPlot "y" "duration";
          fig_title := "Call Duration by Subscription Status";
          fig_xlabel := "Subscription Status"; fig_ylabel := "Duration (in seconds)" |} ;;
  ret df.

Definition visualizer (df : DataFrame) : Run DataFrame :=
  print (nl +:+ "## Univariate Analysis") ;;
  print "Visualizing the distribution of key variables." ;;
  df <- chart_y df ;;
  df <- chart_age df ;;
  df <- chart_job df ;;
  print (nl +:+ "## Bivariate and Multivariate Analysis") ;;
  print "Exploring relationships between variables." ;;
  df <- chart_age_by_y df ;;
  df <- chart_job_by_y df ;;
  df <- chart_correlation df ;;
  chart_duration_by_y df.

(** ** binary64 arithmetic for the printed percentage *)

Definition prec : Z := 53.
Definition emax : Z := 1024.

Definition float_of_Z (n : Z) : spec_float := binary_normalize prec emax n 0 false.
Definition fdiv (x y : spec_float) : spec_float := SFdiv prec emax x y.
Definition fmul (x y : spec_float) : spec_float := SFmul prec emax x y.

(** The binary64 nearest to a rational: an integer is rounded directly,
    a proper fraction as the quotient of numerator and denominator. *)
Definition float_of_Qc (q : Qc) : spec_float :=
  match Qden q with
  | 1%positive => float_of_Z (Qnum q)
  | d => fdiv (float_of_Z (Qnum q)) (float_of_Z (Zpos d))
  end.

(** The numbers of a series with the missing cells skipped (skipna); a
    string cell has no numeric reading. *)
Fixpoint numbers (s : Series) : option (list Qc) :=
  match s with
  | [] => Some []
  | VNum q :: s' => (q ::.) <$> numbers s'
  | VNaN :: s' => numbers s'
  | VStr _ :: _ => None
  end.

Definition sum_Qc (qs : list Qc) : Qc := foldr Qcplus (Q2Qc 0) qs.

(** [Series.mean()]: the binary64 sum of the non-missing cells over their
    number; 0/0 is NaN for a series with no number in it.  The sum is
    taken exactly and rounded once, which is what accumulating in binary64
    gives as long as every partial sum is representable, as for the 0/1
    column this script averages. *)
Definition mean (s : Series) : Run spec_float :=
  match numbers s with
  | Some qs => ret (fdiv (float_of_Qc (sum_Qc qs)) (float_of_Z (Z.of_nat (length qs))))
  | None => raise (TypeError "Could not convert to numeric")
  end.

(** Nearest integer to [n / d] for [0 < d], ties to even. *)
Definition round_half_even (n d : Z) : Z :=
  let q := n / d in
  match 2 * (n mod d) ?= d with
  | Lt => q
  | Gt => q + 1
  | Eq => if Z.even q then q else q + 1
  end.

(** The magnitude [m * 2^e] in hundredths, correctly rounded. *)
Definition hundredths (m : positive) (e : Z) : Z :=
  if 0 <=? e then Zpos m * 2 ^ e * 100
  else round_half_even (Zpos m * 100) (2 ^ (- e)).

Definition two_digits (n : Z) : string :=
  (if n <? 10 then "0" else "") +:+ pretty n.

Definition minus_sign (s : bool) : string := if s then "-" else "".

(** The format specification [.2f] applied to a binary64. *)
Definition format_2f (x : spec_float) : string :=
  match x with
  | S754_nan => "nan"
  | S754_infinity s => minus_sign s +:+ "inf"
  | S754_zero s => minus_sign s +:+ "0.00"
  | S754_finite s m e =>
      let h := hundredths m e in
      minus_sign s +:+ pretty (h / 100) +:+ "." +:+ two_digits (h mod 100)
  end.

(** ** Part 6: the printed insights (lines 138-149) *)

Definition statement1 (subscribed : string) (pct : string) : string :=
  "1. A total of " +:+ subscribed +:+ " clients subscribed to the term deposit, which is "
  +:+ "about " +:+ pct +:+ "% of the dataset.".

Definition statement2 : string :=
  "2. The average age of subscribed clients is slightly higher than non-subscribed clients.".
Definition statement3 : string :=
  "3. Job categories like 'student' and 'retired' have a higher subscription rate relative to their total numbers.".
Definition statement4 : string :=
  "4. There's a strong positive correlation between 'euribor3m' and 'emp.var.rate', which suggests "
  +:+ "they are related economic indicators. This can be important for feature selection.".
Definition statement5 : string :=
  "5. The 'duration' of the last contact is a highly predictive feature for the outcome. "
  +:+ "Clients with longer calls were much more likely to subscribe. However, this is for analysis only and "
  +:+ "should not be used in a predictive model as it's a look-ahead variable.".

Definition insights : list string :=
  [statement2; statement3; statement4; statement5].

Definition reporter (df : DataFrame) : Run DataFrame :=
  print (nl +:+ "## Key Insights from EDA") ;;
  print "Based on the analysis, here are some key findings:" ;;
  y <- getitem "y" df ;;
  subscribed <- loc (VInt 1) "1" (value_counts y) ;;
  y <- getitem "y" df ;;
  share <- mean y ;;
  print (statement1 (pretty subscribed) (format_2f (fmul share (float_of_Z 100)))) ;;
  print statement2 ;;
  print statement3 ;;
  print statement4 ;;
  print statement5 ;;
  ret df.

(** ** The script *)

Definition main (fs : option DataFrame) : Run DataFrame :=
  df <- loader fs ;;
  df <- inspector df ;;
  df <- cleaner df ;;
  df <- visualizer df ;;
  reporter df.

(** ** The correlation matrix of the heatmap (lines 121-123) *)











(** ** Reading the runs *)

(** The events [t], then the run [m]. *)
Definition prepend {A} (t : list event) (m : Run A) : Run A :=
  ((t ++ m.1)%list, m.2).

(** The number of cells of a series that are not missing. *)
Definition labelled (s : Series) : nat :=
  length (filter (λ v, v ≠ VNaN) s).

(** [k] out of [n] as a percentage, in binary64: the quotient, then the
    product by 100. *)
Definition percentage (k n : nat) : spec_float :=
  fmul (fdiv (float_of_Z (Z.of_nat k)) (float_of_Z (Z.of_nat n))) (float_of_Z 100).

Definition header1 : string := nl +:+ "## Key Insights from EDA".
Definition header2 : string := "Based on the analysis, here are some key findings:".

(** ** Sample tables *)

Definition mkrow (age : Z) (job poutcome : string) (duration : Z) (y : string) : Row :=
  <["age" := VInt age]> (<["job" := VStr job]> (<["poutcome" := VStr poutcome]>
    (<["duration" := VInt duration]> (<["y" := VStr y]> ∅)))).

Definition header : list string := ["age"; "job"; "poutcome"; "duration"; "y"].

Definition bank2 : DataFrame :=
  {| columns := header;
     rows := [ mkrow 30 "admin." "nonexistent" 100 "yes";
               mkrow 41 "student" "failure" 250 "no" ] |}.

Definition bank10 : DataFrame :=
  {| columns := header;
     rows := [ mkrow 30 "admin." "nonexistent" 100 "yes";
               mkrow 41 "student" "failure" 250 "no";
               mkrow 52 "retired" "success" 300 "yes";
               mkrow 33 "admin." "nonexistent" 90 "no";
               mkrow 24 "student" "nonexistent" 80 "no";
               mkrow 45 "services" "nonexistent" 70 "no";
               mkrow 36 "admin." "failure" 60 "no";
               mkrow 57 "retired" "nonexistent" 400 "yes";
               mkrow 28 "services" "nonexistent" 50 "no";
               mkrow 39 "admin." "nonexistent" 40 "no" ] |}.


(** A cell of the recoded target column. *)
Definition binary (v : value) : Prop := v = VInt 1 ∨ v = VInt 0 ∨ v = VNaN.

(** A table with one label outside the two the recoding knows. *)
Definition bank_mixed : DataFrame :=
  {| columns := header;
     rows := [ mkrow 30 "admin." "nonexistent" 100 "yes";
               mkrow 41 "student" "failure" 250 "unknown" ] |}.

Definition bank_mixed_clean : DataFrame :=
  cleaner_table [VStr "nonexistent"; VStr "failure"] [VStr "yes"; VStr "unknown"] bank_mixed.

(** A table where nobody subscribed. *)
Definition bank_no : DataFrame :=
  {| columns := header;
     rows := [ mkrow 30 "admin." "nonexistent" 100 "no";
               mkrow 41 "student" "failure" 250 "no" ] |}.

Definition bank_no_clean : DataFrame :=
  cleaner_table [VStr "nonexistent"; VStr "failure"] [VStr "no"; VStr "no"] bank_no.

Definition bank10_clean : DataFrame :=
  cleaner_table
    [VStr "nonexistent"; VStr "failure"; VStr "success"; VStr "nonexistent";
     VStr "nonexistent"; VStr "nonexistent"; VStr "failure"; VStr "nonexistent";
     VStr "nonexistent"; VStr "nonexistent"]
    [VStr "yes"; VStr "no"; VStr "yes"; VStr "no"; VStr "no";
     VStr "no"; VStr "no"; VStr "yes"; VStr "no"; VStr "no"]
    bank10.

(** A table with repeated rows. *)
Definition bank_dup : DataFrame :=
  {| columns := header;
     rows := [ mkrow 30 "admin." "nonexistent" 100 "yes";
               mkrow 41 "student" "failure" 250 "no";
               mkrow 30 "admin." "nonexistent" 100 "yes";
               mkrow 41 "student" "failure" 250 "no";
               mkrow 30 "admin." "nonexistent" 100 "yes" ] |}.

(** [df.drop(columns=[c])], used to build tables that lack a column. *)
Definition drop_column (c : string) (df : DataFrame) : DataFrame :=
  {| columns := filter (λ c', c' ≠ c) (columns df);
     rows := (λ r : Row, delete c r) <$> rows df |}.

(** The order of a value_counts result: counts do not increase. *)
Definition by_count_desc (p q : value * nat) : Prop := (q.2 ≤ p.2)%nat.


Definition msg_cleaning : string := nl +:+ "## Data Cleaning and Preprocessing".
Definition msg_removed : string := "Duplicate rows have been removed.".

(** * Properties *)

(** ** Runs *)

Lemma bind_done {A B} (t : list event) (a : A) (k : A → Run B) :
  bind (t, Done a) k = ((t ++ (k a).1)%list, (k a).2).
Proof. simpl. by destruct (k a). Qed.

Lemma result_bind_done {A B} (m : Run A) (a : A) (k : A → Run B) :
  result m = Done a → result (bind m k) = result (k a).
Proof.
  destruct m as [t o]. unfold result. simpl. intros ->.
  by destruct (k a).
Qed.

Lemma trace_bind_done {A B} (m : Run A) (a : A) (k : A → Run B) :
  result m = Done a → trace (bind m k) = (trace m ++ trace (k a))%list.
Proof.
  destruct m as [t o]. unfold result, trace. simpl. intros ->.
  by destruct (k a).
Qed.

Lemma getitem_some c df s : get_col c df = Some s → getitem c df = ret s.
Proof. unfold getitem. by intros ->. Qed.

Lemma getitem_none c df : get_col c df = None → getitem c df = raise (KeyError c).
Proof. unfold getitem. by intros ->. Qed.

(** ** Columns *)

Lemma get_col_length c df s : get_col c df = Some s → length s = length (rows df).
Proof.
  unfold get_col. case_decide; [|done]. intros [= <-]. by rewrite length_fmap.
Qed.

Lemma get_col_is_Some c df : c ∈ columns df ↔ is_Some (get_col c df).
Proof.
  unfold get_col. case_decide; split; try done; by eauto.
Qed.

Lemma read_zip_insert (c : string) (rs : list Row) (s : Series) :
  length s = length rs →
  (λ r : Row, default VNaN (r !! c)) <$> zip_with (λ (r : Row) v, <[c := v]> r) rs s = s.
Proof.
  revert s. induction rs as [|r rs IH]; intros [|v s] Hlen; simplify_eq/=; [done|].
  rewrite lookup_insert_eq. simpl. f_equal. by apply IH.
Qed.

Lemma read_zip_insert_ne (c c' : string) (rs : list Row) (s : Series) :
  c ≠ c' → length s = length rs →
  (λ r : Row, default VNaN (r !! c')) <$> zip_with (λ (r : Row) v, <[c := v]> r) rs s
  = (λ r : Row, default VNaN (r !! c')) <$> rs.
Proof.
  intros Hne. revert s.
  induction rs as [|r rs IH]; intros [|v s] Hlen; simplify_eq/=; [done|].
  rewrite lookup_insert_ne by done. f_equal. by apply IH.
Qed.

Lemma columns_set_col c c' s df :
  c' ∈ columns (set_col c s df) ↔ c' = c ∨ c' ∈ columns df.
Proof.
  unfold set_col. simpl. case_decide as Hc.
  - split; [by right|]. by intros [-> | ?].
  - rewrite elem_of_app, list_elem_of_singleton. tauto.
Qed.

Lemma get_col_set_col c s df :
  length s = length (rows df) → get_col c (set_col c s df) = Some s.
Proof.
  intros Hlen. unfold get_col.
  rewrite decide_True by (apply columns_set_col; by left).
  simpl. by rewrite read_zip_insert.
Qed.

Lemma get_col_set_col_ne c c' s df :
  c ≠ c' → length s = length (rows df) →
  get_col c' (set_col c s df) = get_col c' df.
Proof.
  intros Hne Hlen. unfold get_col.
  destruct (decide (c' ∈ columns df)) as [Hin|Hin].
  - rewrite decide_True by (apply columns_set_col; by right).
    simpl. by rewrite read_zip_insert_ne.
  - rewrite decide_False; [done|].
    rewrite columns_set_col. intros [-> | ?]; done.
Qed.

Lemma rows_set_col_length c s df :
  length s = length (rows df) → length (rows (set_col c s df)) = length (rows df).
Proof. intros Hlen. simpl. rewrite length_zip_with. lia. Qed.

(** ** The two recodings *)

Lemma series_map_y_codes (v : value) :
  match dict_get y_codes v with Some n => VInt n | None => VNaN end = recode_y v.
Proof.
  unfold recode_y, dict_get, y_codes. destruct v as [s| |]; try done.
  destruct (decide (s = "yes")) as [->|Hy].
  { by rewrite lookup_insert_eq, decide_True. }
  rewrite lookup_insert_ne by done.
  rewrite (decide_False (P := VStr s = VStr "yes")) by congruence.
  destruct (decide (s = "no")) as [->|Hn].
  { by rewrite lookup_insert_eq, decide_True. }
  rewrite lookup_insert_ne by done.
  by rewrite (decide_False (P := VStr s = VStr "no")) by congruence.
Qed.

Lemma series_map_recode (s : Series) : series_map y_codes s = recode_y <$> s.
Proof.
  unfold series_map. apply list_fmap_ext. intros _ v _. apply series_map_y_codes.
Qed.

Lemma replace_recode (s : Series) :
  replace (VStr "nonexistent") (VStr "no_previous_campaign") s = recode_poutcome <$> s.
Proof. done. Qed.

Lemma recode_y_cases (v : value) :
  recode_y v = VInt 1 ∨ recode_y v = VInt 0 ∨ recode_y v = VNaN.
Proof. unfold recode_y. repeat case_decide; auto. Qed.

Lemma cleaner_run df p y :
  get_col "poutcome" df = Some p → get_col "y" df = Some y →
  cleaner df =
    ([Print (nl +:+ "## Data Cleaning and Preprocessing");
      Print (nl +:+ "Target variable 'y' has been mapped to 1 (yes) and 0 (no).")],
     Done (cleaner_table p y df)).
Proof.
  intros Hp Hy. unfold cleaner.
  assert (Hlp := get_col_length _ _ _ Hp).
  rewrite (getitem_some _ _ _ Hp).
  assert (Hy' : get_col "y" (set_col "poutcome"
             (replace (VStr "nonexistent") (VStr "no_previous_campaign") p) df) = Some y).
  { rewrite get_col_set_col_ne; [done|done|]. unfold replace. by rewrite length_fmap. }
  simpl. rewrite (getitem_some _ _ _ Hy'). done.
Qed.

Lemma cleaner_table_y df p y :
  get_col "poutcome" df = Some p → get_col "y" df = Some y →
  get_col "y" (cleaner_table p y df) = Some (recode_y <$> y).
Proof.
  intros Hp Hy. unfold cleaner_table.
  assert (Hlp := get_col_length _ _ _ Hp). assert (Hly := get_col_length _ _ _ Hy).
  rewrite get_col_set_col.
  - by rewrite series_map_recode.
  - unfold series_map. rewrite length_fmap, rows_set_col_length; [done|].
    unfold replace. by rewrite length_fmap.
Qed.

Lemma cleaner_table_poutcome df p y :
  get_col "poutcome" df = Some p → get_col "y" df = Some y →
  get_col "poutcome" (cleaner_table p y df) = Some (recode_poutcome <$> p).
Proof.
  intros Hp Hy. unfold cleaner_table.
  assert (Hlp := get_col_length _ _ _ Hp). assert (Hly := get_col_length _ _ _ Hy).
  assert (Hlr : length (replace (VStr "nonexistent") (VStr "no_previous_campaign") p)
                = length (rows df)).
  { unfold replace. by rewrite length_fmap. }
  rewrite get_col_set_col_ne; [|done|].
  - by rewrite get_col_set_col.
  - unfold series_map. by rewrite length_fmap, rows_set_col_length.
Qed.

Lemma cleaner_table_other df p y c :
  get_col "poutcome" df = Some p → get_col "y" df = Some y →
  c ≠ "poutcome" → c ≠ "y" →
  get_col c (cleaner_table p y df) = get_col c df.
Proof.
  intros Hp Hy Hcp Hcy. unfold cleaner_table.
  assert (Hlp := get_col_length _ _ _ Hp). assert (Hly := get_col_length _ _ _ Hy).
  assert (Hlr : length (replace (VStr "nonexistent") (VStr "no_previous_campaign") p)
                = length (rows df)).
  { unfold replace. by rewrite length_fmap. }
  rewrite get_col_set_col_ne; [|done|].
  - by rewrite get_col_set_col_ne.
  - unfold series_map. by rewrite length_fmap, rows_set_col_length.
Qed.

Lemma cleaner_table_columns df p y c :
  "poutcome" ∈ columns df → "y" ∈ columns df →
  c ∈ columns (cleaner_table p y df) ↔ c ∈ columns df.
Proof.
  intros Hp Hy. unfold cleaner_table. rewrite !columns_set_col.
  split; [|tauto]. intros [-> | [-> | ?]]; done.
Qed.

Lemma cleaner_table_length df p y :
  get_col "poutcome" df = Some p → get_col "y" df = Some y →
  length (rows (cleaner_table p y df)) = length (rows df).
Proof.
  intros Hp Hy. unfold cleaner_table.
  assert (Hlp := get_col_length _ _ _ Hp). assert (Hly := get_col_length _ _ _ Hy).
  assert (Hlr : length (replace (VStr "nonexistent") (VStr "no_previous_campaign") p)
                = length (rows df)).
  { unfold replace. by rewrite length_fmap. }
  rewrite rows_set_col_length; rewrite rows_set_col_length; try done.
  unfold series_map. by rewrite length_fmap.
Qed.

(** C1. After the cleaning stage every cell of column [y] is 1 where it
    was the string "yes", 0 where it was "no", and the missing marker for
    any other original cell (a number, a missing cell, any other string);
    no cell of [y] is the string "yes" or "no" afterwards. *)
Theorem cleaner_recodes_y (df : DataFrame) (p y : Series) :
  get_col "poutcome" df = Some p →
  get_col "y" df = Some y →
  ∃ df' y',
    result (cleaner df) = Done df' ∧
    get_col "y" df' = Some y' ∧
    length y' = length y ∧
    (∀ i v, y !! i = Some v →
       y' !! i = Some (if decide (v = VStr "yes") then VInt 1
                       else if decide (v = VStr "no") then VInt 0
                       else VNaN)) ∧
    (∀ v', v' ∈ y' → (v' = VInt 1 ∨ v' = VInt 0 ∨ v' = VNaN) ∧
                     v' ≠ VStr "yes" ∧ v' ≠ VStr "no").
Proof.
  intros Hp Hy. exists (cleaner_table p y df), (recode_y <$> y).
  split; [by rewrite (cleaner_run _ _ _ Hp Hy)|].
  split; [by apply cleaner_table_y|].
  split; [by rewrite length_fmap|].
  split.
  - intros i v Hi. rewrite list_lookup_fmap, Hi. done.
  - intros v' Hin. apply list_elem_of_fmap in Hin as (v & -> & _).
    split; [apply recode_y_cases|].
    destruct (recode_y_cases v) as [-> | [-> | ->]]; done.
Qed.

Lemma cleaner_recodes_y_witness :
  ∃ df' y',
    result (cleaner bank_mixed) = Done df' ∧
    get_col "y" df' = Some y' ∧
    length y' = length [VStr "yes"; VStr "unknown"] ∧
    (∀ i v, [VStr "yes"; VStr "unknown"] !! i = Some v →
       y' !! i = Some (if decide (v = VStr "yes") then VInt 1
                       else if decide (v = VStr "no") then VInt 0
                       else VNaN)) ∧
    (∀ v', v' ∈ y' → (v' = VInt 1 ∨ v' = VInt 0 ∨ v' = VNaN) ∧
                     v' ≠ VStr "yes" ∧ v' ≠ VStr "no").
Proof.
  apply (cleaner_recodes_y bank_mixed
           [VStr "nonexistent"; VStr "failure"] [VStr "yes"; VStr "unknown"]);
    vm_compute; reflexivity.
Defined.

(** C4. The cleaning stage turns every "nonexistent" of column
    [poutcome] into "no_previous_campaign" and leaves every other cell of
    the column as it was; afterwards no cell of [poutcome] is
    "nonexistent". *)
Theorem cleaner_renames_poutcome (df : DataFrame) (p y : Series) :
  get_col "poutcome" df = Some p →
  get_col "y" df = Some y →
  ∃ df' p',
    result (cleaner df) = Done df' ∧
    get_col "poutcome" df' = Some p' ∧
    length p' = length p ∧
    (∀ i v, p !! i = Some v →
       p' !! i = Some (if decide (v = VStr "nonexistent")
                       then VStr "no_previous_campaign" else v)) ∧
    VStr "nonexistent" ∉ p'.
Proof.
  intros Hp Hy. exists (cleaner_table p y df), (recode_poutcome <$> p).
  split; [by rewrite (cleaner_run _ _ _ Hp Hy)|].
  split; [by apply cleaner_table_poutcome|].
  split; [by rewrite length_fmap|].
  split.
  - intros i v Hi. rewrite list_lookup_fmap, Hi. done.
  - intros Hin. apply list_elem_of_fmap in Hin as (v & Hv & _).
    unfold recode_poutcome in Hv. case_decide; congruence.
Qed.

Lemma cleaner_renames_poutcome_witness :
  ∃ df' p',
    result (cleaner bank2) = Done df' ∧
    get_col "poutcome" df' = Some p' ∧
    length p' = length [VStr "nonexistent"; VStr "failure"] ∧
    (∀ i v, [VStr "nonexistent"; VStr "failure"] !! i = Some v →
       p' !! i = Some (if decide (v = VStr "nonexistent")
                       then VStr "no_previous_campaign" else v)) ∧
    VStr "nonexistent" ∉ p'.
Proof.
  apply (cleaner_renames_poutcome bank2
           [VStr "nonexistent"; VStr "failure"] [VStr "yes"; VStr "no"]);
    vm_compute; reflexivity.
Defined.

(** The recoding applied to its own output: 0 and 1 are no keys of the
    dict, so a positive label does not survive a second application. *)
Lemma y_mapping_twice_loses_labels :
  series_map y_codes [VStr "yes"; VStr "no"] = [VInt 1; VInt 0] ∧
  series_map y_codes (series_map y_codes [VStr "yes"; VStr "no"]) = [VNaN; VNaN] ∧
  ¬ (∀ i v, series_map y_codes [VStr "yes"; VStr "no"] !! i = Some v →
            (v = VInt 0 ∨ v = VInt 1) →
            series_map y_codes (series_map y_codes [VStr "yes"; VStr "no"]) !! i = Some v).
Proof.
  split; [by vm_compute|]. split; [by vm_compute|].
  intros H. specialize (H 0%nat (VInt 1)).
  rewrite !series_map_recode in H. simpl in H.
  discriminate H; [reflexivity | by right].
Qed.

(** C5 (amended). A second application of the recoding sends every cell,
    0 and 1 included, to the missing marker; from then on the column no
    longer changes, and the cells a second application leaves as they were
    are exactly the missing ones. *)
Theorem y_mapping_twice (s : Series) :
  series_map y_codes (series_map y_codes s) = replicate (length s) VNaN ∧
  series_map y_codes (series_map y_codes (series_map y_codes s))
    = series_map y_codes (series_map y_codes s) ∧
  (∀ i v, series_map y_codes s !! i = Some v →
     (series_map y_codes (series_map y_codes s) !! i = Some v ↔ v = VNaN)).
Proof.
  assert (Htwice : ∀ t : Series, recode_y <$> (recode_y <$> t) = replicate (length t) VNaN).
  { induction t as [|v t IH]; [done|]. rewrite !fmap_cons, IH. simpl. f_equal.
    destruct (recode_y_cases v) as [-> | [-> | ->]]; done. }
  rewrite !series_map_recode. split; [apply Htwice|]. split.
  - rewrite (Htwice (recode_y <$> s)), Htwice. by rewrite length_fmap.
  - intros i v Hi. rewrite Htwice.
    assert (i < length s)%nat as Hlt.
    { apply lookup_lt_Some in Hi. by rewrite length_fmap in Hi. }
    rewrite lookup_replicate_2 by done. naive_solver.
Qed.

(** ** Duplicate rows *)

Section duplicates.
Implicit Types (seen rs : list Row) (r : Row) (bs : list bool).

Lemma sum_bool_cons (b : bool) bs :
  sum_bool (b :: bs) = ((if b then 1 else 0) + sum_bool bs)%nat.
Proof.
  unfold sum_bool. rewrite filter_cons. destruct b; by case_decide.
Qed.

Lemma keep_first_cons seen r rs :
  keep_first seen (r :: rs) =
    if bool_decide (r ∈ seen) then keep_first (r :: seen) rs
    else r :: keep_first (r :: seen) rs.
Proof. done. Qed.

Lemma duplicated_from_length seen rs :
  length (duplicated_from seen rs) = length rs.
Proof.
  revert seen. induction rs as [|r rs IH]; intros seen; [done|].
  simpl. by rewrite IH.
Qed.

Lemma elem_of_keep_first seen rs r :
  r ∈ keep_first seen rs ↔ r ∈ rs ∧ r ∉ seen.
Proof.
  revert seen. induction rs as [|r0 rs IH]; intros seen.
  - unfold keep_first. simpl. rewrite elem_of_nil. tauto.
  - rewrite keep_first_cons. case_bool_decide as Hin.
    + rewrite IH, not_elem_of_cons, elem_of_cons.
      split; [tauto|]. intros [[-> | Hr] Hs]; [done|].
      repeat split; try done. by intros ->.
    + rewrite elem_of_cons, IH, not_elem_of_cons, elem_of_cons.
      split; [intros [-> | ?]; tauto|].
      intros [[-> | Hr] Hs]; [by left|].
      destruct (decide (r = r0)) as [->|Hne]; [by left|]. right. tauto.
Qed.

Lemma keep_first_sublist seen rs : keep_first seen rs `sublist_of` rs.
Proof.
  revert seen. induction rs as [|r rs IH]; intros seen; [done|].
  rewrite keep_first_cons. case_bool_decide.
  - by apply sublist_cons.
  - by apply sublist_skip.
Qed.

Lemma keep_first_NoDup seen rs : NoDup (keep_first seen rs).
Proof.
  revert seen. induction rs as [|r rs IH]; intros seen.
  - apply NoDup_nil_2.
  - rewrite keep_first_cons. case_bool_decide; [done|].
    apply NoDup_cons_2; [|done]. rewrite elem_of_keep_first, not_elem_of_cons. tauto.
Qed.

Lemma duplicated_from_proper seen seen' rs :
  (∀ x, x ∈ seen ↔ x ∈ seen') →
  duplicated_from seen rs = duplicated_from seen' rs.
Proof.
  revert seen seen'. induction rs as [|r rs IH]; intros seen seen' Heq; [done|].
  simpl. f_equal.
  - apply bool_decide_ext, Heq.
  - apply IH. intros x. rewrite !elem_of_cons, Heq. done.
Qed.

Lemma keep_first_app seen l1 l2 :
  keep_first seen (l1 ++ l2) =
    keep_first seen l1 ++ keep_first (reverse l1 ++ seen) l2.
Proof.
  revert seen. induction l1 as [|r l1 IH]; intros seen; [done|].
  rewrite <- app_comm_cons, !keep_first_cons, IH.
  rewrite reverse_cons, <- app_assoc. simpl.
  by case_bool_decide.
Qed.

Lemma keep_first_length seen rs :
  (length (keep_first seen rs) + sum_bool (duplicated_from seen rs))%nat = length rs.
Proof.
  revert seen. induction rs as [|r rs IH]; intros seen; [done|].
  rewrite keep_first_cons. simpl duplicated_from. rewrite sum_bool_cons.
  specialize (IH (r :: seen)). case_bool_decide; simpl; lia.
Qed.

Lemma keep_first_id seen rs :
  sum_bool (duplicated_from seen rs) = 0%nat → keep_first seen rs = rs.
Proof.
  revert seen. induction rs as [|r rs IH]; intros seen; [done|].
  rewrite keep_first_cons. simpl duplicated_from. rewrite sum_bool_cons.
  case_bool_decide; [done|]. simpl. intros H0. f_equal. by apply IH.
Qed.

Lemma keep_first_fresh seen rs :
  NoDup rs → (∀ r, r ∈ rs → r ∉ seen) → keep_first seen rs = rs.
Proof.
  revert seen. induction rs as [|r rs IH]; intros seen Hnd Hfresh; [done|].
  apply NoDup_cons in Hnd as [Hr Hnd].
  rewrite keep_first_cons, bool_decide_eq_false_2 by (apply Hfresh; by left).
  f_equal. apply IH; [done|]. intros r' Hr'. rewrite not_elem_of_cons. split.
  - by intros ->.
  - apply Hfresh. by right.
Qed.

Lemma duplicated_from_lookup seen rs (i : nat) :
  duplicated_from seen rs !! i = Some true ↔
  ∃ r, rs !! i = Some r ∧ (r ∈ seen ∨ ∃ j : nat, (j < i)%nat ∧ rs !! j = Some r).
Proof.
  revert seen i. induction rs as [|r0 rs IH]; intros seen i.
  - simpl. split; [done|]. by intros (r & ? & _).
  - destruct i as [|i]; simpl.
    + split.
      * intros [= Hd]. apply bool_decide_eq_true_1 in Hd. eauto.
      * intros (r & [= <-] & [Hin | (j & Hj & _)]); [|lia].
        by rewrite bool_decide_eq_true_2.
    + rewrite IH. split.
      * intros (r & Hi & [Hin | (j & Hj & Hr)]); exists r; (split; [done|]).
        -- apply elem_of_cons in Hin as [-> | Hin]; [|by left].
           right. exists 0%nat. split; [lia|done].
        -- right. exists (S j). split; [lia|done].
      * intros (r & Hi & [Hin | (j & Hj & Hr)]); exists r; (split; [done|]).
        -- left. by right.
        -- destruct j as [|j]; simpl in Hr.
           ++ left. injection Hr as ->. by left.
           ++ right. exists j. split; [lia|done].
Qed.
End duplicates.

Lemma loader_some (df : DataFrame) :
  loader (Some df) = ([Print msg_loaded], Done df).
Proof. done. Qed.

Lemma inspector_result (df : DataFrame) :
  result (inspector df) = Done (inspector_table df).
Proof. unfold inspector, inspector_table. by case_decide. Qed.

(** C3. Inspection changes the table only when [duplicated()] marks a
    row; it then keeps, in their original order, exactly the first
    occurrence of every row and drops each later copy, so that the row
    count falls by the number of marked rows; nothing is left to drop
    afterwards, and the recoding of the cleaning stage runs on the table
    so reduced. *)
Theorem inspector_drops_duplicates (df : DataFrame) :
  result (inspector df) = Done (inspector_table df) ∧
  (sum_bool (duplicated df) = 0%nat → inspector_table df = df) ∧
  (∀ i : nat, duplicated df !! i = Some true ↔
       ∃ (j : nat) r, (j < i)%nat ∧ rows df !! j = Some r ∧ rows df !! i = Some r) ∧
  columns (inspector_table df) = columns df ∧
  rows (inspector_table df) `sublist_of` rows df ∧
  NoDup (rows (inspector_table df)) ∧
  (∀ r, r ∈ rows (inspector_table df) ↔ r ∈ rows df) ∧
  (∀ l1 r l2, rows df = l1 ++ r :: l2 → r ∉ l1 →
     ∃ k1 k2, rows (inspector_table df) = k1 ++ r :: k2 ∧
              k1 `sublist_of` l1 ∧ k2 `sublist_of` l2) ∧
  length (rows (inspector_table df))
    = (length (rows df) - sum_bool (duplicated df))%nat ∧
  inspector_table (inspector_table df) = inspector_table df ∧
  result (main (Some df))
    = result (df1 <- cleaner (inspector_table df) ;;
              df2 <- visualizer df1 ;;
              reporter df2).
Proof.
  assert (Hrows : rows (inspector_table df) = keep_first [] (rows df)).
  { unfold inspector_table. case_decide; [done|].
    symmetry. apply keep_first_id. unfold duplicated in *. lia. }
  assert (Hcols : columns (inspector_table df) = columns df).
  { unfold inspector_table. by case_decide. }
  split; [apply inspector_result|].
  split. { intros H0. unfold inspector_table. rewrite decide_False; [done|lia]. }
  split.
  { intros i. unfold duplicated. rewrite duplicated_from_lookup. split.
    - intros (r & Hi & [Hin | (j & Hj & Hr)]); [by apply elem_of_nil in Hin|].
      by exists j, r.
    - intros (j & r & Hj & Hr & Hi). exists r. split; [done|]. right. by exists j. }
  split; [done|].
  rewrite Hrows.
  split; [apply keep_first_sublist|].
  split; [apply keep_first_NoDup|].
  split. { intros r. rewrite elem_of_keep_first, elem_of_nil. tauto. }
  split.
  { intros l1 r l2 -> Hr. rewrite keep_first_app, keep_first_cons.
    rewrite bool_decide_eq_false_2.
    - eexists _, _. split; [done|]. split; apply keep_first_sublist.
    - rewrite app_nil_r, elem_of_reverse. done. }
  split.
  { pose proof (keep_first_length [] (rows df)) as Hlen. unfold duplicated. lia. }
  split.
  { destruct (inspector_table df) as [cs rs] eqn:Hdf. simpl in *.
    unfold inspector_table. case_decide as Hdup; [|done].
    unfold drop_duplicates, duplicated. simpl. f_equal.
    fold (keep_first [] rs). apply keep_first_fresh.
    - rewrite Hrows. apply keep_first_NoDup.
    - intros r _. apply not_elem_of_nil. }
  unfold main.
  rewrite (result_bind_done (loader (Some df)) df) by done.
  by rewrite (result_bind_done (inspector df) (inspector_table df))
    by apply inspector_result.
Qed.

Example inspector_bank_dup :
  sum_bool (duplicated bank_dup) = 3%nat ∧
  rows (inspector_table bank_dup) = rows bank2.
Proof. split; by vm_compute. Qed.

(** ** Composition of the stages *)

Lemma bind_eq {A B} (m : Run A) (a : A) (k : A → Run B) :
  result m = Done a →
  bind m k = ((trace m ++ trace (k a))%list, result (k a)).
Proof.
  destruct m as [t o]. unfold result, trace. simpl. intros ->.
  by destruct (k a).
Qed.

Lemma main_stages (df df1 df2 : DataFrame) :
  result (cleaner (inspector_table df)) = Done df1 →
  result (visualizer df1) = Done df2 →
  main (Some df) =
    (trace (loader (Some df)) ++ trace (inspector df)
       ++ trace (cleaner (inspector_table df)) ++ trace (visualizer df1)
       ++ trace (reporter df2),
     result (reporter df2)).
Proof.
  intros Hc Hv. unfold main.
  rewrite (bind_eq (loader (Some df)) df) by done.
  rewrite (bind_eq (inspector df) (inspector_table df)) by apply inspector_result.
  rewrite (bind_eq (cleaner _) df1) by done.
  rewrite (bind_eq (visualizer _) df2) by done.
  unfold trace, result. simpl. by destruct (reporter df2).
Qed.

(** ** The missing input file *)

(** C2. With no input file the run prints the two diagnostic lines
    (which name the file and give the download link) and stops at
    [exit()]: nothing is shown and nothing else is printed.  The exit
    status it ends with is 0, the status of a run that completes. *)
Theorem missing_file_exit_status :
  main None = ([Print msg_not_found; Print msg_link], Exit None) ∧
  String.substring 12 24 msg_not_found = "bank-additional-full.csv" ∧
  String.substring 6 83 msg_link
    = "https://archive.ics.uci.edu/ml/machine-learning-databases/00222/bank-additional.zip" ∧
  charts_shown (trace (main None)) = [] ∧
  exit_status (result (main None)) = 0 ∧
  (∃ fin, result (main (Some bank10)) = Done fin) ∧
  exit_status (result (main None)) = exit_status (result (main (Some bank10))).
Proof.
  split; [done|]. split; [by vm_compute|]. split; [by vm_compute|].
  split; [done|]. split; [done|].
  split; [eexists; by vm_compute|]. by vm_compute.
Qed.

(** ** The charts *)

Lemma variable_ok c df : c ∈ columns df → variable c df = ret tt.
Proof. intros Hc. unfold variable. by rewrite decide_True. Qed.

Lemma get_col_in c df :
  c ∈ columns df → get_col c df = Some ((λ r : Row, default VNaN (r !! c)) <$> rows df).
Proof. intros Hc. unfold get_col. by rewrite decide_True. Qed.



(** ** Counting *)

Lemma is_missing_true v : is_missing v = true ↔ v = VNaN.
Proof. by destruct v. Qed.

Lemma VInt_inj (a b : Z) : VInt a = VInt b → a = b.
Proof.
  intros [= H]. apply Qred_eq_iff in H. by apply inject_Z_injective.
Qed.

Lemma count_cons (v w : value) (s : Series) :
  count v (w :: s) = ((if decide (w = v) then 1 else 0) + count v s)%nat.
Proof. unfold count. rewrite filter_cons. by case_decide. Qed.


Lemma elem_of_unique_from (seen s : Series) (v : value) :
  v ∈ unique_from seen s ↔ v ∈ s ∧ (v ∉ seen) ∧ (v ≠ VNaN).
Proof.
  revert seen. induction s as [|w s IH]; intros seen; simpl.
  - rewrite elem_of_nil. tauto.
  - destruct (bool_decide (w ∈ seen) || is_missing w) eqn:Hskip.
    + rewrite IH, elem_of_cons. split; [tauto|].
      intros [[-> | Hin] [Hs Hm]]; [|tauto].
      apply orb_true_iff in Hskip as [Hw | Hw].
      * by apply bool_decide_eq_true_1 in Hw.
      * by apply is_missing_true in Hw.
    + apply orb_false_iff in Hskip as [Hw Hm].
      apply bool_decide_eq_false_1 in Hw.
      assert (w ≠ VNaN) by (intros ->; done).
      rewrite !elem_of_cons, IH, not_elem_of_cons. split.
      * intros [-> | (? & [? ?] & ?)]; [by auto|tauto].
      * intros [[-> | Hin] [Hs Hn]]; [by left|].
        destruct (decide (v = w)) as [->|Hne]; [by left|]. right. tauto.
Qed.

Lemma unique_from_NoDup (seen s : Series) : NoDup (unique_from seen s).
Proof.
  revert seen. induction s as [|w s IH]; intros seen; simpl.
  - apply NoDup_nil_2.
  - destruct (bool_decide (w ∈ seen) || is_missing w); [done|].
    apply NoDup_cons_2; [|done].
    rewrite elem_of_unique_from, not_elem_of_cons. tauto.
Qed.

Lemma lookup_label_tabulate (f : value → nat) (l : Series) (k : value) :
  lookup_label k ((λ v, (v, f v)) <$> l) = if decide (k ∈ l) then Some (f k) else None.
Proof.
  induction l as [|v l IH].
  - rewrite decide_False; [done|]. apply not_elem_of_nil.
  - rewrite fmap_cons. cbn [lookup_label].
    destruct (decide (v = k)) as [->|Hne].
    + rewrite decide_True; [done|]. by left.
    + rewrite IH. destruct (decide (k ∈ l)) as [Hin|Hin].
      * rewrite decide_True; [done|]. by right.
      * rewrite decide_False; [done|]. rewrite not_elem_of_cons. split; [done|done].
Qed.

Lemma keys_tabulate (f : value → nat) (l : Series) :
  ((λ v, (v, f v)) <$> l).*1 = l.
Proof.
  induction l as [|v l IH]; [done|]. rewrite !fmap_cons, IH. done.
Qed.

Lemma lookup_label_fresh (k : value) (l : list (value * nat)) :
  k ∉ l.*1 → lookup_label k l = None.
Proof.
  induction l as [|[v n] l IH]; [done|]. simpl. rewrite not_elem_of_cons.
  intros [Hne Hin]. rewrite decide_False by done. by apply IH.
Qed.

Lemma insert_desc_keys (p : value * nat) (l : list (value * nat)) :
  (insert_desc p l).*1 ≡ₚ p.1 :: l.*1.
Proof.
  induction l as [|q l IH]; [done|]. simpl. case_decide; [done|].
  simpl. rewrite IH. apply Permutation_swap.
Qed.

Lemma lookup_label_insert_desc (k : value) (p : value * nat) (l : list (value * nat)) :
  p.1 ∉ l.*1 → lookup_label k (insert_desc p l) = lookup_label k (p :: l).
Proof.
  induction l as [|[w m] l IH]; [done|].
  simpl. rewrite not_elem_of_cons. intros [Hne Hin].
  case_decide; [done|]. destruct p as [v n]. simpl in *.
  rewrite IH by done. simpl.
  destruct (decide (w = k)) as [->|?]; [|done].
  by rewrite decide_False.
Qed.

Lemma sort_desc_keys (l : list (value * nat)) : (sort_desc l).*1 ≡ₚ l.*1.
Proof.
  induction l as [|p l IH]; [done|]. simpl.
  by rewrite insert_desc_keys, IH.
Qed.

Lemma lookup_label_sort_desc (k : value) (l : list (value * nat)) :
  NoDup l.*1 → lookup_label k (sort_desc l) = lookup_label k l.
Proof.
  induction l as [|[v n] l IH]; [done|]. simpl.
  intros [Hv Hnd]%NoDup_cons.
  rewrite lookup_label_insert_desc.
  - simpl. by rewrite IH.
  - simpl. by rewrite sort_desc_keys.
Qed.

Lemma lookup_value_counts (k : value) (s : Series) :
  k ≠ VNaN →
  lookup_label k (value_counts s) = if decide (k ∈ s) then Some (count k s) else None.
Proof.
  intros Hk. unfold value_counts.
  rewrite lookup_label_sort_desc.
  - rewrite lookup_label_tabulate. unfold unique.
    destruct (decide (k ∈ s)) as [Hin|Hin].
    + rewrite decide_True; [done|]. rewrite elem_of_unique_from.
      split; [done|]. split; [apply not_elem_of_nil|done].
    + rewrite decide_False; [done|]. rewrite elem_of_unique_from. tauto.
  - rewrite keys_tabulate. apply unique_from_NoDup.
Qed.

(** ** The first statement *)

Lemma bind_prepend {A B} (t : list event) (a : A) (k : A → Run B) :
  bind (t, Done a) k = prepend t (k a).
Proof. unfold prepend. simpl. by destruct (k a). Qed.

Lemma bind_ret {A B} (a : A) (k : A → Run B) : bind (ret a) k = k a.
Proof. unfold ret. simpl. by destruct (k a). Qed.

Lemma bind_print {B} (s : string) (k : unit → Run B) :
  bind (print s) k = prepend [Print s] (k tt).
Proof. apply bind_prepend. Qed.

Lemma bind_raise {A B} (e : exn) (k : A → Run B) : bind (raise e) k = raise e.
Proof. done. Qed.

Lemma VInt_1_not_missing : VInt 1 ≠ VNaN.
Proof. done. Qed.

Lemma reporter_key_error (df : DataFrame) (y : Series) :
  get_col "y" df = Some y → VInt 1 ∉ y →
  reporter df = ([Print header1; Print header2], Raise (KeyError "1")).
Proof.
  intros Hy Hno. unfold reporter.
  rewrite !bind_print, (getitem_some _ _ _ Hy), bind_ret.
  unfold loc. rewrite lookup_value_counts by done.
  rewrite decide_False by done. by rewrite bind_raise.
Qed.

Lemma reporter_statement (df : DataFrame) (y : Series) (share : spec_float) :
  get_col "y" df = Some y → VInt 1 ∈ y → mean y = ret share →
  reporter df =
    ([Print header1; Print header2;
      Print (statement1 (pretty (count (VInt 1) y))
                        (format_2f (fmul share (float_of_Z 100))));
      Print statement2; Print statement3; Print statement4; Print statement5],
     Done df).
Proof.
  intros Hy Hin Hmean. unfold reporter.
  rewrite !bind_print, (getitem_some _ _ _ Hy), bind_ret.
  unfold loc. rewrite lookup_value_counts by done.
  rewrite decide_True by done. rewrite !bind_ret.
  rewrite Hmean, bind_ret.
  by rewrite !bind_print.
Qed.

(** ** The mean of a 0/1 column *)

Lemma Q2Qc_inject_Z_plus (a b : Z) :
  (Q2Qc (inject_Z a) + Q2Qc (inject_Z b))%Qc = Q2Qc (inject_Z (a + b)).
Proof.
  unfold Qcplus. apply Q2Qc_eq_iff. simpl.
  rewrite !Qred_correct. by rewrite inject_Z_plus.
Qed.

Lemma float_of_Qc_Z (n : Z) : float_of_Qc (Q2Qc (inject_Z n)) = float_of_Z n.
Proof.
  unfold float_of_Qc. simpl.
  rewrite (Qred_identity (inject_Z n)); [done|].
  simpl. apply Z.gcd_1_r.
Qed.

Lemma labelled_cons (v : value) (s : Series) :
  labelled (v :: s) = ((if decide (v = VNaN) then 0 else 1) + labelled s)%nat.
Proof. unfold labelled. rewrite filter_cons. by repeat case_decide. Qed.

Lemma numbers_binary (y : Series) :
  Forall binary y →
  ∃ qs, numbers y = Some qs ∧
        sum_Qc qs = Q2Qc (inject_Z (Z.of_nat (count (VInt 1) y))) ∧
        length qs = labelled y.
Proof.
  induction 1 as [|v y Hv _ (qs & Hqs & Hsum & Hlen)].
  - by exists [].
  - rewrite count_cons, labelled_cons. destruct Hv as [-> | [-> | ->]].
    + exists (Q2Qc (inject_Z 1) :: qs). cbn [numbers VInt]. rewrite Hqs.
      split; [done|]. rewrite decide_True, decide_False by done.
      split; [|simpl; by rewrite Hlen].
      cbn [sum_Qc foldr]. fold (sum_Qc qs). rewrite Hsum, Q2Qc_inject_Z_plus.
      do 2 f_equal. lia.
    + exists (Q2Qc (inject_Z 0) :: qs). cbn [numbers VInt]. rewrite Hqs.
      split; [done|].
      rewrite (decide_False (P := VInt 0 = VInt 1)) by (by intros ?%VInt_inj).
      rewrite decide_False by done.
      split; [|simpl; by rewrite Hlen].
      cbn [sum_Qc foldr]. fold (sum_Qc qs). rewrite Hsum, Q2Qc_inject_Z_plus.
      do 2 f_equal.
    + exists qs. cbn [numbers]. rewrite decide_False, decide_True by done.
      done.
Qed.

Lemma mean_binary (y : Series) :
  Forall binary y →
  mean y = ret (fdiv (float_of_Z (Z.of_nat (count (VInt 1) y)))
                     (float_of_Z (Z.of_nat (labelled y)))).
Proof.
  intros (qs & Hqs & Hsum & Hlen)%numbers_binary.
  unfold mean. by rewrite Hqs, Hsum, float_of_Qc_Z, Hlen.
Qed.

Lemma labelled_all (y : Series) : labelled y = length y ↔ VNaN ∉ y.
Proof.
  induction y as [|v y IH].
  - split; [intros _; apply not_elem_of_nil|done].
  - rewrite labelled_cons, not_elem_of_cons. simpl.
    assert (labelled y ≤ length y)%nat by apply length_filter.
    case_decide as Hv.
    + split; [lia|]. by intros [? _].
    + rewrite <- IH. split; [intros; split; [done|lia]|]. intros [_ ->]. done.
Qed.

Lemma binary_recode_y (y : Series) : Forall binary (recode_y <$> y).
Proof. apply Forall_fmap, Forall_true. intros v. apply recode_y_cases. Qed.

Lemma count_recode_y (y : Series) :
  count (VInt 1) (recode_y <$> y) = count (VStr "yes") y.
Proof.
  induction y as [|v y IH]; [done|].
  rewrite fmap_cons, !count_cons, IH. f_equal.
  unfold recode_y. by repeat case_decide.
Qed.

Lemma labelled_recode_y (y : Series) :
  labelled (recode_y <$> y) = (count (VStr "yes") y + count (VStr "no") y)%nat.
Proof.
  induction y as [|v y IH]; [done|].
  rewrite fmap_cons, labelled_cons, !count_cons, IH.
  unfold recode_y. repeat case_decide; simplify_eq; lia.
Qed.

Lemma recognised_all (y : Series) :
  (count (VStr "yes") y + count (VStr "no") y)%nat = length y ↔
  Forall (λ v, v = VStr "yes" ∨ v = VStr "no") y.
Proof.
  rewrite <- labelled_recode_y.
  rewrite <- (length_fmap recode_y y), labelled_all.
  rewrite Forall_forall, list_elem_of_fmap. split.
  - intros Hno v Hin. unfold recode_y in Hno.
    destruct (decide (v = VStr "yes")) as [|Hy]; [by left|].
    destruct (decide (v = VStr "no")) as [|Hn]; [by right|].
    destruct Hno. exists v. by rewrite !decide_False.
  - intros Hall (v & Hv & Hin). destruct (Hall v Hin) as [-> | ->]; done.
Qed.

Lemma statement1_not_header (k pct : string) :
  statement1 k pct ≠ header1 ∧ statement1 k pct ≠ header2.
Proof. split; discriminate. Qed.

(** C9. When the cleaned table has no row with [y == 1], the first
    statement is never produced, not even with a count of 0: the label
    lookup [value_counts()[1]] raises KeyError after the two heading lines
    of the report, nothing catches it, and the run ends there with the
    exception as its outcome. *)
Theorem reporter_key_error_without_subscribers (df0 df : DataFrame) (y : Series) :
  result (cleaner (inspector_table df0)) = Done df →
  result (visualizer df) = Done df →
  get_col "y" df = Some y →
  VInt 1 ∉ y →
  reporter df = ([Print header1; Print header2], Raise (KeyError "1")) ∧
  (∀ k pct, Print (statement1 k pct) ∉ trace (reporter df)) ∧
  (∀ s, s ∈ insights → Print s ∉ trace (reporter df)) ∧
  result (main (Some df0)) = Raise (KeyError "1") ∧
  exit_status (result (main (Some df0))) = 1 ∧
  ∃ before, trace (main (Some df0)) = (before ++ [Print header1; Print header2])%list.
Proof.
  intros Hclean Hvis Hy Hno.
  pose proof (reporter_key_error df y Hy Hno) as Hrep.
  split; [done|]. rewrite (main_stages df0 df df Hclean Hvis), Hrep.
  split.
  { intros k pct Hin. unfold trace in Hin. simpl in Hin.
    destruct (statement1_not_header k pct) as [H1 H2].
    apply elem_of_cons in Hin as [Hin | Hin]; [by injection Hin|].
    apply elem_of_cons in Hin as [Hin | Hin]; [by injection Hin|].
    by apply elem_of_nil in Hin. }
  split.
  { intros s Hs Hin. unfold trace in Hin. simpl in Hin.
    assert (s ≠ header1 ∧ s ≠ header2) as [H1 H2].
    { unfold insights in Hs.
      repeat (apply elem_of_cons in Hs as [-> | Hs]; [split; discriminate|]).
      by apply elem_of_nil in Hs. }
    apply elem_of_cons in Hin as [Hin | Hin]; [by injection Hin|].
    apply elem_of_cons in Hin as [Hin | Hin]; [by injection Hin|].
    by apply elem_of_nil in Hin. }
  unfold result, trace. cbn [fst snd].
  split; [done|]. split; [done|].
  eexists. by rewrite !app_assoc.
Qed.

Lemma reporter_key_error_without_subscribers_witness :
  reporter bank_no_clean = ([Print header1; Print header2], Raise (KeyError "1")) ∧
  (∀ k pct, Print (statement1 k pct) ∉ trace (reporter bank_no_clean)) ∧
  (∀ s, s ∈ insights → Print s ∉ trace (reporter bank_no_clean)) ∧
  result (main (Some bank_no)) = Raise (KeyError "1") ∧
  exit_status (result (main (Some bank_no))) = 1 ∧
  ∃ before, trace (main (Some bank_no)) = (before ++ [Print header1; Print header2])%list.
Proof.
  apply (reporter_key_error_without_subscribers bank_no bank_no_clean [VInt 0; VInt 0]).
  - by vm_compute.
  - by vm_compute.
  - by vm_compute.
  - intros Hin. apply elem_of_cons in Hin as [Hin | Hin]; [discriminate Hin|].
    apply elem_of_cons in Hin as [Hin | Hin]; [discriminate Hin|].
    by apply elem_of_nil in Hin.
Defined.

(** With a label the recoding does not know, the printed share is taken
    over the rows that kept a label, not over all rows: one subscriber in
    a table of two rows is reported as 100.00%, not as 50.00%. *)
Lemma reporter_share_not_of_all_rows :
  result (cleaner bank_mixed) = Done bank_mixed_clean ∧
  length (rows bank_mixed_clean) = 2%nat ∧
  get_col "y" bank_mixed_clean = Some [VInt 1; VNaN] ∧
  printed (trace (reporter bank_mixed_clean)) !! 2%nat = Some (statement1 "1" "100.00") ∧
  format_2f (percentage 1 2) = "50.00" ∧
  printed (trace (reporter bank_mixed_clean)) !! 2%nat
    ≠ Some (statement1 "1" (format_2f (percentage 1 2))).
Proof.
  split; [by vm_compute|]. split; [by vm_compute|]. split; [by vm_compute|].
  split; [by vm_compute|]. split; [by vm_compute|].
  vm_compute. discriminate.
Qed.

(** C6 (amended). On a cleaned table with at least one row with
    [y == 1], the report completes and its first statement gives the
    number of rows with [y == 1] and, to two decimals, that number as a
    percentage of the rows whose [y] is not missing; this is the
    percentage of all rows exactly when no [y] is missing.  With 3
    positives among 10 labelled rows it reads "3" and "30.00%". *)
Theorem reporter_first_statement (df : DataFrame) (y : Series) :
  get_col "y" df = Some y →
  Forall binary y →
  VInt 1 ∈ y →
  result (reporter df) = Done df ∧
  printed (trace (reporter df)) =
    [ header1; header2;
      statement1 (pretty (count (VInt 1) y))
                 (format_2f (percentage (count (VInt 1) y) (labelled y)));
      statement2; statement3; statement4; statement5 ] ∧
  (labelled y = length (rows df) ↔ VNaN ∉ y) ∧
  (count (VInt 1) y = 3%nat → labelled y = 10%nat →
     printed (trace (reporter df)) !! 2%nat = Some (statement1 "3" "30.00")).
Proof.
  intros Hy Hbin Hin.
  rewrite (reporter_statement df y _ Hy Hin (mean_binary y Hbin)).
  split; [done|]. split; [done|]. split.
  - rewrite <- (get_col_length _ _ _ Hy). apply labelled_all.
  - intros -> ->. by vm_compute.
Qed.

Lemma reporter_first_statement_witness :
  result (reporter bank10_clean) = Done bank10_clean ∧
  printed (trace (reporter bank10_clean)) =
    [ header1; header2;
      statement1 (pretty (count (VInt 1) (recode_y <$> [VStr "yes"; VStr "no"; VStr "yes";
                   VStr "no"; VStr "no"; VStr "no"; VStr "no"; VStr "yes"; VStr "no"; VStr "no"])))
                 (format_2f (percentage
                    (count (VInt 1) (recode_y <$> [VStr "yes"; VStr "no"; VStr "yes";
                       VStr "no"; VStr "no"; VStr "no"; VStr "no"; VStr "yes"; VStr "no"; VStr "no"]))
                    (labelled (recode_y <$> [VStr "yes"; VStr "no"; VStr "yes";
                       VStr "no"; VStr "no"; VStr "no"; VStr "no"; VStr "yes"; VStr "no"; VStr "no"]))));
      statement2; statement3; statement4; statement5 ] ∧
  (labelled (recode_y <$> [VStr "yes"; VStr "no"; VStr "yes";
      VStr "no"; VStr "no"; VStr "no"; VStr "no"; VStr "yes"; VStr "no"; VStr "no"])
     = length (rows bank10_clean) ↔
   VNaN ∉ recode_y <$> [VStr "yes"; VStr "no"; VStr "yes";
      VStr "no"; VStr "no"; VStr "no"; VStr "no"; VStr "yes"; VStr "no"; VStr "no"]) ∧
  (count (VInt 1) (recode_y <$> [VStr "yes"; VStr "no"; VStr "yes";
      VStr "no"; VStr "no"; VStr "no"; VStr "no"; VStr "yes"; VStr "no"; VStr "no"]) = 3%nat →
   labelled (recode_y <$> [VStr "yes"; VStr "no"; VStr "yes";
      VStr "no"; VStr "no"; VStr "no"; VStr "no"; VStr "yes"; VStr "no"; VStr "no"]) = 10%nat →
   printed (trace (reporter bank10_clean)) !! 2%nat = Some (statement1 "3" "30.00")).
Proof.
  apply (reporter_first_statement bank10_clean).
  - by vm_compute.
  - apply binary_recode_y.
  - apply (list_elem_of_fmap_2 recode_y _ (VStr "yes")). by left.
Defined.

(** C10. The percentage of the first statement is 100 times the mean of
    the non-missing cells of the recoded [y]: with [k] rows labelled "yes"
    and [n] rows labelled "no" in the table handed to the cleaning stage
    it is [k] out of [k + n].  Rows with any other label are not counted
    in the denominator, which is the number of rows of the table only when
    every row carries one of the two labels. *)
Theorem reported_share_skips_unlabelled (df : DataFrame) (p y : Series) :
  get_col "poutcome" df = Some p →
  get_col "y" df = Some y →
  VStr "yes" ∈ y →
  ∃ df' y',
    result (cleaner df) = Done df' ∧
    get_col "y" df' = Some y' ∧
    mean y' = ret (fdiv (float_of_Z (Z.of_nat (count (VStr "yes") y)))
                        (float_of_Z (Z.of_nat (count (VStr "yes") y + count (VStr "no") y)))) ∧
    printed (trace (reporter df')) !! 2%nat =
      Some (statement1 (pretty (count (VStr "yes") y))
              (format_2f (percentage (count (VStr "yes") y)
                                     (count (VStr "yes") y + count (VStr "no") y)))) ∧
    (count (VStr "yes") y + count (VStr "no") y ≤ length (rows df'))%nat ∧
    ((count (VStr "yes") y + count (VStr "no") y)%nat = length (rows df') ↔
       Forall (λ v, v = VStr "yes" ∨ v = VStr "no") y).
Proof.
  intros Hp Hy Hin. exists (cleaner_table p y df), (recode_y <$> y).
  pose proof (cleaner_table_y df p y Hp Hy) as Hy'.
  pose proof (binary_recode_y y) as Hbin.
  assert (VInt 1 ∈ recode_y <$> y) as Hin'.
  { by apply (list_elem_of_fmap_2 recode_y _ (VStr "yes")). }
  assert (length (rows (cleaner_table p y df)) = length y) as Hlen.
  { rewrite (cleaner_table_length df p y Hp Hy). symmetry. by eapply get_col_length. }
  split; [by rewrite (cleaner_run _ _ _ Hp Hy)|]. split; [done|].
  split. { by rewrite (mean_binary _ Hbin), count_recode_y, labelled_recode_y. }
  split.
  { rewrite (reporter_statement _ _ _ Hy' Hin' (mean_binary _ Hbin)).
    by rewrite count_recode_y, labelled_recode_y. }
  rewrite Hlen. split; [|apply recognised_all].
  rewrite <- labelled_recode_y, <- (length_fmap recode_y y). apply length_filter.
Qed.

Lemma reported_share_skips_unlabelled_witness :
  ∃ df' y',
    result (cleaner bank_mixed) = Done df' ∧
    get_col "y" df' = Some y' ∧
    mean y' = ret (fdiv (float_of_Z (Z.of_nat (count (VStr "yes") [VStr "yes"; VStr "unknown"])))
                        (float_of_Z (Z.of_nat (count (VStr "yes") [VStr "yes"; VStr "unknown"]
                                               + count (VStr "no") [VStr "yes"; VStr "unknown"])))) ∧
    printed (trace (reporter df')) !! 2%nat =
      Some (statement1 (pretty (count (VStr "yes") [VStr "yes"; VStr "unknown"]))
              (format_2f (percentage (count (VStr "yes") [VStr "yes"; VStr "unknown"])
                                     (count (VStr "yes") [VStr "yes"; VStr "unknown"]
                                      + count (VStr "no") [VStr "yes"; VStr "unknown"])))) ∧
    (count (VStr "yes") [VStr "yes"; VStr "unknown"]
       + count (VStr "no") [VStr "yes"; VStr "unknown"] ≤ length (rows df'))%nat ∧
    ((count (VStr "yes") [VStr "yes"; VStr "unknown"]
        + count (VStr "no") [VStr "yes"; VStr "unknown"])%nat = length (rows df') ↔
       Forall (λ v, v = VStr "yes" ∨ v = VStr "no") [VStr "yes"; VStr "unknown"]).
Proof.
  apply (reported_share_skips_unlabelled bank_mixed
           [VStr "nonexistent"; VStr "failure"] [VStr "yes"; VStr "unknown"]).
  - by vm_compute.
  - by vm_compute.
  - by left.
Defined.

(** ** The correlation matrix *)

Section correlation.
Local Open Scope R_scope.
Implicit Types (l : list R) (ps : list (R * R)) (xs ys : Series).






















End correlation.




(** * Further properties of the script *)

(** ** Runs that stop early *)

Lemma bind_raise_eq {A B} (m : Run A) (e : exn) (k : A → Run B) :
  result m = Raise e → bind m k = (trace m, Raise e).
Proof. destruct m as [t o]. unfold result, trace. simpl. by intros ->. Qed.

Lemma inspector_table_columns (df : DataFrame) :
  columns (inspector_table df) = columns df.
Proof. unfold inspector_table. by case_decide. Qed.

Lemma inspector_table_rows (df : DataFrame) :
  rows (inspector_table df) = keep_first [] (rows df).
Proof.
  unfold inspector_table. case_decide; [done|].
  symmetry. apply keep_first_id. unfold duplicated in *. lia.
Qed.

Lemma get_col_None (c : string) (df : DataFrame) :
  get_col c df = None ↔ c ∉ columns df.
Proof. unfold get_col. case_decide; split; try done. Qed.

Lemma inspector_shows_nothing (df : DataFrame) :
  charts_shown (trace (inspector df)) = [].
Proof. unfold inspector. by case_decide. Qed.

Lemma main_cleaner_raises (df : DataFrame) (e : exn) :
  result (cleaner (inspector_table df)) = Raise e →
  main (Some df) =
    (trace (loader (Some df)) ++ trace (inspector df)
       ++ trace (cleaner (inspector_table df)),
     Raise e).
Proof.
  intros Hc. unfold main.
  rewrite (bind_eq (loader (Some df)) df) by done.
  rewrite (bind_eq (inspector df) (inspector_table df)) by apply inspector_result.
  rewrite (bind_raise_eq (cleaner _) e) by done.
  done.
Qed.

Lemma cleaner_raises (df : DataFrame) (c : string) :
  (c = "poutcome" ∧ "poutcome" ∉ columns df) ∨
  (c = "y" ∧ "poutcome" ∈ columns df ∧ "y" ∉ columns df) →
  cleaner df = ([Print msg_cleaning], Raise (KeyError c)).
Proof.
  intros [[-> Hp] | (-> & Hp & Hy)]; unfold cleaner.
  - apply get_col_None in Hp. by rewrite (getitem_none _ _ Hp).
  - apply get_col_is_Some in Hp as [p Hp]. apply get_col_None in Hy.
    rewrite (getitem_some _ _ _ Hp), bind_print, bind_ret.
    rewrite (getitem_none "y").
    + done.
    + rewrite get_col_set_col_ne; [done|done|].
      unfold replace. rewrite length_fmap. by eapply get_col_length.
Qed.

(** X1. A table without the column [poutcome], or with it but without
    [y], stops the run in the cleaning stage: the column lookup raises
    KeyError for the first of the two that is absent, after the stage's
    heading line; no figure has been shown and the exit status is 1. *)
Theorem cleaner_missing_column (df : DataFrame) (c : string) :
  (c = "poutcome" ∧ "poutcome" ∉ columns df) ∨
  (c = "y" ∧ "poutcome" ∈ columns df ∧ "y" ∉ columns df) →
  cleaner df = ([Print msg_cleaning], Raise (KeyError c)) ∧
  result (main (Some df)) = Raise (KeyError c) ∧
  exit_status (result (main (Some df))) = 1 ∧
  charts_shown (trace (main (Some df))) = [].
Proof.
  intros Hmiss. split; [by apply cleaner_raises|].
  assert (cleaner (inspector_table df) = ([Print msg_cleaning], Raise (KeyError c))) as Hc.
  { apply cleaner_raises. by rewrite inspector_table_columns. }
  rewrite (main_cleaner_raises df (KeyError c)) by (by rewrite Hc).
  split; [done|]. split; [done|].
  unfold trace at 1. cbn [fst]. unfold charts_shown.
  rewrite !omap_app. fold (charts_shown (trace (inspector df))).
  rewrite inspector_shows_nothing, Hc. done.
Qed.

Lemma cleaner_missing_column_witness :
  cleaner (drop_column "y" bank2) = ([Print msg_cleaning], Raise (KeyError "y")) ∧
  result (main (Some (drop_column "y" bank2))) = Raise (KeyError "y") ∧
  exit_status (result (main (Some (drop_column "y" bank2)))) = 1 ∧
  charts_shown (trace (main (Some (drop_column "y" bank2)))) = [].
Proof.
  apply (cleaner_missing_column (drop_column "y" bank2) "y").
  right. split; [done|]. split.
  - vm_compute. repeat constructor.
  - apply (bool_decide_eq_false_1 ("y" ∈ columns (drop_column "y" bank2))).
    by vm_compute.
Defined.

(** ** What the cleaning stage leaves alone *)

Lemma set_col_columns (c : string) (s : Series) (df : DataFrame) :
  c ∈ columns df → columns (set_col c s df) = columns df.
Proof. intros Hc. unfold set_col. simpl. by rewrite decide_True. Qed.

(** X2. The cleaning stage rewrites the columns [poutcome] and [y] and
    nothing else: the header and the number of rows stay as they were and
    every other column reads as before. *)
Theorem cleaner_keeps_other_columns (df : DataFrame) (p y : Series) :
  get_col "poutcome" df = Some p →
  get_col "y" df = Some y →
  ∃ df',
    result (cleaner df) = Done df' ∧
    columns df' = columns df ∧
    length (rows df') = length (rows df) ∧
    (∀ c, c ≠ "poutcome" → c ≠ "y" → get_col c df' = get_col c df).
Proof.
  intros Hp Hy. exists (cleaner_table p y df).
  split; [by rewrite (cleaner_run _ _ _ Hp Hy)|].
  split.
  { unfold cleaner_table.
    assert ("poutcome" ∈ columns df) as Hpc by (apply get_col_is_Some; eauto).
    assert ("y" ∈ columns df) as Hyc by (apply get_col_is_Some; eauto).
    rewrite set_col_columns; rewrite set_col_columns; done. }
  split; [by apply cleaner_table_length|].
  intros c Hcp Hcy. by apply cleaner_table_other.
Qed.

Lemma cleaner_keeps_other_columns_witness :
  ∃ df',
    result (cleaner bank10) = Done df' ∧
    columns df' = columns bank10 ∧
    length (rows df') = length (rows bank10) ∧
    (∀ c, c ≠ "poutcome" → c ≠ "y" → get_col c df' = get_col c bank10).
Proof.
  apply (cleaner_keeps_other_columns bank10
    [VStr "nonexistent"; VStr "failure"; VStr "success"; VStr "nonexistent";
     VStr "nonexistent"; VStr "nonexistent"; VStr "failure"; VStr "nonexistent";
     VStr "nonexistent"; VStr "nonexistent"]
    [VStr "yes"; VStr "no"; VStr "yes"; VStr "no"; VStr "no";
     VStr "no"; VStr "no"; VStr "yes"; VStr "no"; VStr "no"]);
    by vm_compute.
Defined.

Lemma recode_poutcome_idemp (v : value) :
  recode_poutcome (recode_poutcome v) = recode_poutcome v.
Proof. unfold recode_poutcome. by repeat case_decide. Qed.

Lemma recode_y_twice (t : Series) :
  recode_y <$> (recode_y <$> t) = replicate (length t) VNaN.
Proof.
  induction t as [|v t IH]; [done|]. rewrite !fmap_cons, IH. simpl. f_equal.
  destruct (recode_y_cases v) as [-> | [-> | ->]]; done.
Qed.

(** X3. Cleaning a table that has been cleaned already succeeds again;
    it leaves [poutcome] exactly as the first pass made it and turns every
    cell of [y] into the missing marker. *)
Theorem cleaner_twice (df : DataFrame) (p y : Series) :
  get_col "poutcome" df = Some p →
  get_col "y" df = Some y →
  ∃ df' df'',
    result (cleaner df) = Done df' ∧
    result (cleaner df') = Done df'' ∧
    get_col "poutcome" df'' = get_col "poutcome" df' ∧
    get_col "y" df'' = Some (replicate (length (rows df)) VNaN).
Proof.
  intros Hp Hy.
  pose proof (cleaner_table_poutcome df p y Hp Hy) as Hp'.
  pose proof (cleaner_table_y df p y Hp Hy) as Hy'.
  exists (cleaner_table p y df),
    (cleaner_table (recode_poutcome <$> p) (recode_y <$> y) (cleaner_table p y df)).
  split; [by rewrite (cleaner_run _ _ _ Hp Hy)|].
  split; [by rewrite (cleaner_run _ _ _ Hp' Hy')|].
  rewrite (cleaner_table_poutcome _ _ _ Hp' Hy'), (cleaner_table_y _ _ _ Hp' Hy'), Hp'.
  split.
  - f_equal. rewrite <- list_fmap_compose. apply list_fmap_ext.
    intros _ v _. apply recode_poutcome_idemp.
  - f_equal. rewrite <- (get_col_length _ _ _ Hy). apply recode_y_twice.
Qed.

Lemma cleaner_twice_witness :
  ∃ df' df'',
    result (cleaner bank2) = Done df' ∧
    result (cleaner df') = Done df'' ∧
    get_col "poutcome" df'' = get_col "poutcome" df' ∧
    get_col "y" df'' = Some (replicate (length (rows bank2)) VNaN).
Proof.
  apply (cleaner_twice bank2 [VStr "nonexistent"; VStr "failure"] [VStr "yes"; VStr "no"]);
    by vm_compute.
Defined.

(** ** What inspection reports *)

Lemma no_duplicates_NoDup (rs : list Row) :
  sum_bool (duplicated_from [] rs) = 0%nat ↔ NoDup rs.
Proof.
  split.
  - intros H0. rewrite <- (keep_first_id [] rs H0). apply keep_first_NoDup.
  - intros Hnd. pose proof (keep_first_length [] rs) as Hlen.
    rewrite keep_first_fresh in Hlen; [lia|done|].
    intros r _. apply not_elem_of_nil.
Qed.

Lemma inspector_trace (df : DataFrame) :
  trace (inspector df) =
    ([ Print (nl +:+ "## Initial Data Inspection");
       Print "First 5 rows of the dataset:";
       PrintSummary Head;
       Print (nl +:+ "Dataset has " +:+ pretty (length (rows df)) +:+ " rows and "
                 +:+ pretty (length (columns df)) +:+ " columns.");
       Print (nl +:+ "DataFrame Info:");
       PrintSummary Info;
       Print (nl +:+ "Descriptive Statistics for Numerical Columns:");
       PrintSummary Describe;
       Print (nl +:+ "Descriptive Statistics for Categorical Columns:");
       PrintSummary DescribeObject;
       Print (nl +:+ "Number of duplicate rows: " +:+ pretty (sum_bool (duplicated df))) ]
     ++ if decide (0 < sum_bool (duplicated df))%nat then [Print msg_removed] else [])%list.
Proof. unfold inspector. by case_decide. Qed.

(** X4. Inspection prints the number of rows it is about to drop, which
    is the difference between the row counts before and after; it says
    that duplicate rows have been removed exactly when the table holds
    two equal rows, and that is also exactly when it changes the table. *)
Theorem inspector_reports_removal (df : DataFrame) :
  Print (nl +:+ "Number of duplicate rows: "
            +:+ pretty (length (rows df) - length (rows (inspector_table df)))%nat)
    ∈ trace (inspector df) ∧
  (Print msg_removed ∈ trace (inspector df) ↔ ¬ NoDup (rows df)) ∧
  (inspector_table df = df ↔ NoDup (rows df)).
Proof.
  pose proof (keep_first_length [] (rows df)) as Hlen.
  pose proof (no_duplicates_NoDup (rows df)) as Hnd.
  fold (duplicated df) in Hlen, Hnd.
  rewrite inspector_trace. split.
  { rewrite inspector_table_rows.
    replace (length (rows df) - length (keep_first [] (rows df)))%nat
      with (sum_bool (duplicated df)) by lia.
    apply elem_of_app. left. do 10 right. by left. }
  split.
  - rewrite elem_of_app. rewrite <- Hnd. split.
    + intros [Hin | Hin].
      * repeat (apply elem_of_cons in Hin as [Hin | Hin]; [discriminate Hin|]).
        by apply elem_of_nil in Hin.
      * case_decide; [lia|]. by apply elem_of_nil in Hin.
    + intros Hdup. right. rewrite decide_True by lia. by left.
  - rewrite <- Hnd. unfold inspector_table. case_decide as Hdup.
    + split; [|lia]. intros Heq. apply (f_equal (λ d, length (rows d))) in Heq.
      unfold drop_duplicates in Heq. cbn [rows] in Heq.
      change (drop_marked (rows df) (duplicated df))
        with (keep_first [] (rows df)) in Heq. lia.
    + split; [lia|done].
Qed.

(** ** Charts and missing columns *)





(** ** The columns of the heatmap *)

Lemma is_numeric_recode_y (y : Series) :
  y ≠ [] → is_numeric (recode_y <$> y) = true.
Proof.
  intros Hne. unfold is_numeric. apply andb_true_iff. split.
  - apply bool_decide_eq_true_2. by destruct y.
  - apply forallb_forall. intros v Hin. apply list_elem_of_In in Hin.
    apply list_elem_of_fmap in Hin as (w & -> & _).
    destruct (recode_y_cases w) as [-> | [-> | ->]]; done.
Qed.

Lemma is_numeric_recode_poutcome (p : Series) :
  is_numeric (recode_poutcome <$> p) = is_numeric p.
Proof.
  unfold is_numeric. f_equal.
  - apply bool_decide_ext. by destruct p.
  - induction p as [|v p IH]; [done|]. rewrite fmap_cons. simpl. rewrite IH. f_equal.
    unfold recode_poutcome. case_decide; by subst.
Qed.

Lemma elem_of_numerical_cols (df : DataFrame) (c : string) :
  c ∈ numerical_cols df ↔ ∃ s, get_col c df = Some s ∧ is_numeric s = true.
Proof.
  unfold numerical_cols, numeric_col. rewrite list_elem_of_filter. split.
  - intros [Hnum Hc]. destruct (get_col c df) as [s|]; [by eauto|done].
  - intros (s & Hs & Hnum). rewrite Hs. split; [done|].
    apply get_col_is_Some. eauto.
Qed.

(** X6. For a table with at least one row, the numeric columns after
    cleaning, which are the columns of the correlation heatmap, are the
    numeric columns of the table before cleaning together with [y]. *)
Theorem cleaned_numeric_columns (df : DataFrame) (p y : Series) :
  get_col "poutcome" df = Some p →
  get_col "y" df = Some y →
  rows df ≠ [] →
  ∃ df',
    result (cleaner df) = Done df' ∧
    (∀ c, c ∈ numerical_cols df' ↔ c = "y" ∨ c ∈ numerical_cols df) ∧
    fig_chart <$> charts_shown (trace (chart_correlation df'))
      = [Heatmap (numerical_cols df') ".2f"].
Proof.
  intros Hp Hy Hrows. exists (cleaner_table p y df).
  split; [by rewrite (cleaner_run _ _ _ Hp Hy)|]. split; [|done].
  assert (y ≠ []) as Hyne.
  { intros ->. apply get_col_length in Hy. by destruct (rows df). }
  intros c. rewrite !elem_of_numerical_cols.
  destruct (decide (c = "y")) as [->|Hcy].
  { rewrite (cleaner_table_y df p y Hp Hy). split; [by left|]. intros _.
    eexists. split; [done|]. by apply is_numeric_recode_y. }
  destruct (decide (c = "poutcome")) as [->|Hcp].
  { rewrite (cleaner_table_poutcome df p y Hp Hy), Hp. split.
    - intros (s & [= <-] & Hnum). right. exists p. split; [done|].
      by rewrite <- is_numeric_recode_poutcome.
    - intros [? | (s & [= <-] & Hnum)]; [done|]. eexists. split; [done|].
      by rewrite is_numeric_recode_poutcome. }
  rewrite (cleaner_table_other df p y c Hp Hy Hcp Hcy). split; [by right|].
  by intros [? | ?].
Qed.

Lemma cleaned_numeric_columns_witness :
  ∃ df',
    result (cleaner bank2) = Done df' ∧
    (∀ c, c ∈ numerical_cols df' ↔ c = "y" ∨ c ∈ numerical_cols bank2) ∧
    fig_chart <$> charts_shown (trace (chart_correlation df'))
      = [Heatmap (numerical_cols df') ".2f"].
Proof.
  apply (cleaned_numeric_columns bank2
           [VStr "nonexistent"; VStr "failure"] [VStr "yes"; VStr "no"]);
    by vm_compute.
Defined.

(** ** The order of the job categories *)

Lemma insert_desc_perm (p : value * nat) (l : list (value * nat)) :
  insert_desc p l ≡ₚ p :: l.
Proof.
  induction l as [|q l IH]; [done|]. simpl. case_decide; [done|].
  rewrite IH. apply Permutation_swap.
Qed.

Lemma sort_desc_perm (l : list (value * nat)) : sort_desc l ≡ₚ l.
Proof.
  induction l as [|p l IH]; [done|]. simpl. by rewrite insert_desc_perm, IH.
Qed.

Lemma insert_desc_sorted (p : value * nat) (l : list (value * nat)) :
  StronglySorted by_count_desc l → StronglySorted by_count_desc (insert_desc p l).
Proof.
  induction 1 as [|q l Hl IH Hq]; simpl.
  - repeat constructor.
  - case_decide as Hle.
    + constructor; [by constructor|]. constructor; [done|].
      eapply Forall_impl; [exact Hq|]. unfold by_count_desc. intros r Hr. simpl in *. lia.
    + constructor; [done|]. rewrite insert_desc_perm. constructor; [|done].
      unfold by_count_desc. lia.
Qed.

Lemma sort_desc_sorted (l : list (value * nat)) :
  StronglySorted by_count_desc (sort_desc l).
Proof.
  induction l as [|p l IH]; simpl; [constructor|]. by apply insert_desc_sorted.
Qed.

Lemma sorted_lookup (l : list (value * nat)) (i j : nat) (p q : value * nat) :
  StronglySorted by_count_desc l → (i < j)%nat →
  l !! i = Some p → l !! j = Some q → by_count_desc p q.
Proof.
  intros Hl. revert i j. induction Hl as [|r l Hl IH Hr]; intros i j Hij Hi Hj; [done|].
  destruct j as [|j]; [lia|]. simpl in Hj. destruct i as [|i]; simpl in Hi.
  - injection Hi as ->. rewrite Forall_forall in Hr. apply Hr.
    by eapply list_elem_of_lookup_2.
  - apply (IH i j); [lia|done|done].
Qed.

Lemma value_counts_entries (s : Series) (p : value * nat) :
  p ∈ value_counts s ↔ p.1 ∈ s ∧ p.1 ≠ VNaN ∧ p.2 = count p.1 s.
Proof.
  unfold value_counts. rewrite sort_desc_perm, list_elem_of_fmap. unfold unique. split.
  - intros (v & -> & Hv). apply elem_of_unique_from in Hv as (Hin & _ & Hm). done.
  - intros (Hin & Hm & Hc). exists p.1. split.
    + destruct p as [v n]. simpl in *. by subst.
    + apply elem_of_unique_from. split; [done|]. split; [apply not_elem_of_nil|done].
Qed.

(** X7. The two count plots of [job] take their category order from
    [value_counts]: every job that occurs in the column is listed exactly
    once, missing cells are not listed, and a category never comes before
    one that occurs more often. *)
Theorem job_order_by_frequency (df : DataFrame) (job : Series) :
  get_col "job" df = Some job →
  let order := index (value_counts job) in
  charts_shown (trace (chart_job df)) =
    [ {| fig_chart := CountPlot "job" None (Some order);
         fig_title := "Distribution of Job Categories";
         fig_xlabel := "Count"; fig_ylabel := "Job" |} ] ∧
  NoDup order ∧
  (∀ v, v ∈ order ↔ v ∈ job ∧ v ≠ VNaN) ∧
  (∀ (i j : nat) v w, (i ≤ j)%nat → order !! i = Some v → order !! j = Some w →
     (count w job ≤ count v job)%nat).
Proof.
  intros Hjob order. split.
  { unfold chart_job. by rewrite (getitem_some _ _ _ Hjob). }
  assert (Hkeys : order ≡ₚ unique job).
  { unfold order, index, value_counts. by rewrite sort_desc_keys, keys_tabulate. }
  split. { rewrite Hkeys. apply unique_from_NoDup. }
  split.
  { intros v. rewrite Hkeys. unfold unique. rewrite elem_of_unique_from.
    split; [tauto|]. intros [? ?]. split; [done|]. split; [apply not_elem_of_nil|done]. }
  intros i j v w Hij Hi Hj. unfold order, index in Hi, Hj.
  rewrite list_lookup_fmap in Hi, Hj.
  destruct (value_counts job !! i) as [[v' n]|] eqn:Ei; [|done].
  destruct (value_counts job !! j) as [[w' m]|] eqn:Ej; [|done].
  simpl in Hi, Hj. injection Hi as ->. injection Hj as ->.
  destruct (decide (i = j)) as [->|Hne].
  { rewrite Ei in Ej. by injection Ej as -> ->. }
  pose proof (sorted_lookup _ i j _ _ (sort_desc_sorted _) ltac:(lia) Ei Ej) as Hdesc.
  apply list_elem_of_lookup_2, value_counts_entries in Ei as (_ & _ & Hn).
  apply list_elem_of_lookup_2, value_counts_entries in Ej as (_ & _ & Hm).
  unfold by_count_desc in Hdesc. simpl in *. lia.
Qed.

Lemma job_order_by_frequency_witness :
  let order := index (value_counts
      [VStr "admin."; VStr "student"; VStr "retired"; VStr "admin."; VStr "student";
       VStr "services"; VStr "admin."; VStr "retired"; VStr "services"; VStr "admin."]) in
  charts_shown (trace (chart_job bank10)) =
    [ {| fig_chart := CountPlot "job" None (Some order);
         fig_title := "Distribution of Job Categories";
         fig_xlabel := "Count"; fig_ylabel := "Job" |} ] ∧
  NoDup order ∧
  (∀ v, v ∈ order ↔
     v ∈ [VStr "admin."; VStr "student"; VStr "retired"; VStr "admin."; VStr "student";
          VStr "services"; VStr "admin."; VStr "retired"; VStr "services"; VStr "admin."]
     ∧ v ≠ VNaN) ∧
  (∀ (i j : nat) v w, (i ≤ j)%nat → order !! i = Some v → order !! j = Some w →
     (count w [VStr "admin."; VStr "student"; VStr "retired"; VStr "admin."; VStr "student";
               VStr "services"; VStr "admin."; VStr "retired"; VStr "services"; VStr "admin."]
      ≤ count v [VStr "admin."; VStr "student"; VStr "retired"; VStr "admin."; VStr "student";
                 VStr "services"; VStr "admin."; VStr "retired"; VStr "services"; VStr "admin."])%nat).
Proof.
  apply (job_order_by_frequency bank10). by vm_compute.
Defined.

(** ** The whole run *)

Lemma inspector_table_col (df : DataFrame) (c : string) (ys : Series) :
  get_col c df = Some ys →
  ∃ ys', get_col c (inspector_table df) = Some ys' ∧
         ys' `sublist_of` ys ∧
         (∀ v, v ∈ ys' ↔ v ∈ ys).
Proof.
  intros Hc. assert (c ∈ columns df) as Hin by (apply get_col_is_Some; eauto).
  rewrite (get_col_in _ _ Hin) in Hc. injection Hc as <-.
  eexists. split.
  { apply get_col_in. by rewrite inspector_table_columns. }
  rewrite inspector_table_rows. split.
  - apply fmap_sublist, keep_first_sublist.
  - intros v. rewrite !list_elem_of_fmap. split.
    + intros (r & -> & Hr). apply elem_of_keep_first in Hr as [Hr _]. eauto.
    + intros (r & -> & Hr). exists r. split; [done|].
      apply elem_of_keep_first. split; [done|apply not_elem_of_nil].
Qed.






(** X9. Dropping duplicate rows never reorders or invents cells: every
    column of the table that leaves inspection is a subsequence of the
    same column before, and holds the same set of values. *)
Theorem inspector_keeps_column_values (df : DataFrame) (c : string) (ys : Series) :
  get_col c df = Some ys →
  ∃ ys', get_col c (inspector_table df) = Some ys' ∧
         ys' `sublist_of` ys ∧
         (∀ v, v ∈ ys' ↔ v ∈ ys) ∧
         (length ys' = length ys - sum_bool (duplicated df))%nat.
Proof.
  intros Hc. destruct (inspector_table_col df c ys Hc) as (ys' & Hc' & Hsub & Hmem).
  exists ys'. split; [done|]. split; [done|]. split; [done|].
  rewrite (get_col_length _ _ _ Hc'), (get_col_length _ _ _ Hc), inspector_table_rows.
  pose proof (keep_first_length [] (rows df)) as Hlen. unfold duplicated. lia.
Qed.

Lemma inspector_keeps_column_values_witness :
  ∃ ys', get_col "age" (inspector_table bank_dup) = Some ys' ∧
         ys' `sublist_of` [VInt 30; VInt 41; VInt 30; VInt 41; VInt 30] ∧
         (∀ v, v ∈ ys' ↔ v ∈ [VInt 30; VInt 41; VInt 30; VInt 41; VInt 30]) ∧
         (length ys' = length [VInt 30; VInt 41; VInt 30; VInt 41; VInt 30]
                       - sum_bool (duplicated bank_dup))%nat.
Proof.
  apply (inspector_keeps_column_values bank_dup "age"). by vm_compute.
Defined.

(** ** The range of the coefficients *)

Section range.
Local Open Scope R_scope.






End range.

(** ** Two decimals *)

Lemma round_half_even_nearest (n d : Z) :
  0 < d →
  2 * Z.abs (round_half_even n d * d - n) ≤ d ∧
  (2 * (n mod d) = d → Z.even (round_half_even n d) = true).
Proof.
  intros Hd. unfold round_half_even. cbv zeta.
  pose proof (Z.div_mod n d ltac:(lia)) as Hdiv.
  pose proof (Z.mod_pos_bound n d Hd) as Hmod.
  destruct (Z.compare_spec (2 * (n mod d)) d) as [Hcmp | Hcmp | Hcmp].
  - destruct (Z.even (n / d)) eqn:Heven.
    + split; [lia|done].
    + split; [lia|]. intros _. rewrite Z.add_1_r, Z.even_succ.
      by rewrite <- Z.negb_even, Heven.
  - split; [lia|]. intros ?. lia.
  - split; [lia|]. intros ?. lia.
Qed.

Lemma two_digits_length (k : Z) :
  0 ≤ k < 100 → String.length (two_digits k) = 2%nat.
Proof.
  intros Hk.
  assert (Forall (λ k, String.length (two_digits k) = 2%nat) (seqZ 0 100)) as Hall.
  { refine (bool_decide_unpack _ _). by vm_compute. }
  rewrite Forall_forall in Hall. apply Hall, elem_of_seqZ. lia.
Qed.

(** X11. The format [.2f] prints a finite binary64 [m * 2^e] with a
    point followed by exactly two digits, and the hundredths it prints
    are the integer nearest to 100 times the value, the even one of the
    two when the value lies halfway. *)
Theorem format_2f_nearest_hundredth (s : bool) (m : positive) (e : Z) :
  let d := 2 ^ Z.max 0 (- e) in
  let n := Z.pos m * 100 * 2 ^ Z.max 0 e in
  let h := hundredths m e in
  format_2f (S754_finite s m e)
    = minus_sign s +:+ pretty (h / 100) +:+ "." +:+ two_digits (h mod 100) ∧
  String.length (two_digits (h mod 100)) = 2%nat ∧
  0 ≤ h ∧
  2 * Z.abs (h * d - n) ≤ d ∧
  (2 * (n mod d) = d → Z.even h = true).
Proof.
  cbv zeta. split; [done|].
  split. { apply two_digits_length, Z.mod_pos_bound. lia. }
  unfold hundredths. destruct (0 <=? e) eqn:He.
  - apply Z.leb_le in He.
    rewrite (Z.max_l 0 (- e)), (Z.max_r 0 e) by lia.
    assert (0 < 2 ^ e) by (apply Z.pow_pos_nonneg; lia).
    change (2 ^ 0) with 1. rewrite !Z.mul_1_r, Z.mod_1_r.
    split; [lia|]. split; [|lia].
    replace (Z.pos m * 2 ^ e * 100 - Z.pos m * 100 * 2 ^ e) with 0 by lia. simpl. lia.
  - apply Z.leb_gt in He.
    rewrite (Z.max_r 0 (- e)), (Z.max_l 0 e) by lia.
    change (2 ^ 0) with 1. rewrite Z.mul_1_r.
    assert (0 < 2 ^ (- e)) as Hd by (apply Z.pow_pos_nonneg; lia).
    destruct (round_half_even_nearest (Z.pos m * 100) (2 ^ (- e)) Hd) as [Hnear Htie].
    split; [|done].
    unfold round_half_even. cbv zeta.
    pose proof (Z.div_pos (Z.pos m * 100) (2 ^ (- e)) ltac:(lia) Hd) as Hq.
    destruct (Z.compare_spec (2 * ((Z.pos m * 100) mod 2 ^ (- e))) (2 ^ (- e)));
      [|lia|lia].
    destruct (Z.even (Z.pos m * 100 / 2 ^ (- e))); lia.
Qed.

(** ** The fixed statements *)

Ltac not_done :=
  let H := fresh in
  intros H; unfold prepend, raise, bind, result in H; simpl in H; discriminate H.

Lemma reporter_done_trace (df df' : DataFrame) :
  result (reporter df) = Done df' →
  ∃ k pct, trace (reporter df) =
    [Print header1; Print header2; Print (statement1 k pct);
     Print statement2; Print statement3; Print statement4; Print statement5].
Proof.
  unfold reporter. rewrite !bind_print.
  unfold getitem. destruct (get_col "y" df) as [y|]; [|not_done].
  rewrite !bind_ret. cbn beta. unfold loc.
  destruct (lookup_label (VInt 1) (value_counts y)) as [k|]; [|not_done].
  rewrite !bind_ret. cbn beta. unfold mean. destruct (numbers y) as [qs|]; [|not_done].
  rewrite bind_ret, !bind_print. intros _. by eexists _, _.
Qed.

(** X12. Whenever the report completes, statements 2 to 5 are the same
    four fixed lines whatever the table holds; only the count and the
    percentage of the first statement are computed from the data. *)
Theorem report_statements_fixed (df df' : DataFrame) :
  result (reporter df) = Done df' →
  df' = df ∧
  ∃ k pct, printed (trace (reporter df))
           = ([header1; header2; statement1 k pct] ++ insights)%list.
Proof.
  intros Hdone. destruct (reporter_done_trace df df' Hdone) as (k & pct & Htrace).
  split.
  - revert Hdone. unfold reporter. rewrite !bind_print.
    unfold getitem. destruct (get_col "y" df) as [y|]; [|not_done].
    rewrite !bind_ret. cbn beta. unfold loc.
    destruct (lookup_label (VInt 1) (value_counts y)) as [n|]; [|not_done].
    rewrite !bind_ret. cbn beta. unfold mean. destruct (numbers y) as [qs|]; [|not_done].
    rewrite bind_ret, !bind_print. by intros [= ->].
  - exists k, pct. by rewrite Htrace.
Qed.

Lemma report_statements_fixed_witness :
  bank10_clean = bank10_clean ∧
  ∃ k pct, printed (trace (reporter bank10_clean))
           = ([header1; header2; statement1 k pct] ++ insights)%list.
Proof.
  apply (report_statements_fixed bank10_clean bank10_clean). by vm_compute.
Defined.

(** ** The first row *)

(** X13. Dropping duplicates never empties a table: the first row is
    never marked and is still the first row afterwards. *)
Theorem inspector_keeps_first_row (df : DataFrame) :
  head (rows (inspector_table df)) = head (rows df) ∧
  head (duplicated df) = (λ _, false) <$> head (rows df) ∧
  (rows (inspector_table df) = [] ↔ rows df = []).
Proof.
  rewrite inspector_table_rows. unfold duplicated.
  destruct (rows df) as [|r rs]; [done|].
  rewrite keep_first_cons. cbn [duplicated_from].
  rewrite (bool_decide_eq_false_2 (r ∈ [])) by apply not_elem_of_nil. done.
Qed.
